(** * PyUPS: the shipping package XML API ([ups/shipping_package.py])

    A shallow embedding of the request builders of [ShipmentMixin],
    [ShipmentConfirm], [ShipmentAccept] and [ShipmentVoid], of the
    [request] operation of the three clients, and of the digest
    extraction, together with the properties stated about them.

    Python keyword dictionaries are finite maps ([gmap string value]),
    iterated in the order of [map_to_list]: a Python 2 dictionary is
    iterated in an order of its own, and no property below depends on
    it. Exceptions are an error type; the logger and the HTTP transport
    are recorded as a list of events. The builders are classmethods:
    their bodies are the functions named after them, [call] applies a
    body to its bound parameters, and [invoke] is the call as the caller
    writes it, with Python's binding of the arguments to the parameters
    in front. Elements are modelled twice: as
    values (trees), which is what a builder returns at the moment it
    returns, and as objects in a heap ([Objects]), where an element that
    is appended a second time moves. Strings are taken to be text that
    lxml accepts (no control characters), keywords to be names that it
    accepts as tags, as Python identifiers are, and positional
    arguments to be elements. *)

From Stdlib Require Import ZArith Ascii String.
From stdpp Require Import gmap strings list fin_maps.

Set Warnings "-register-all".
Open Scope string_scope.
Open Scope list_scope.

(** ** lxml element trees, as values *)

(** An lxml element without attributes: tag, text before the first
    child, tail text after the element, and the children in order. *)
Inductive Elem : Type :=
  Element { tag : string;
            text : option string;
            tail : option string;
            children : list Elem }.

(** What [lxml.builder.E] accepts as a child argument in this program:
    a string or an element. *)
Inductive item : Type :=
| Text (s : string)
| Child (e : Elem).

Definition set_tail (s : string) (e : Elem) : Elem :=
  Element (tag e) (text e) (Some (default "" (tail e) +:+ s)) (children e).

(** [add_text] of [lxml.builder]: a string goes to the text of the
    element while it has no child, and to the tail of its last child
    afterwards. *)
Definition add_text (elem : Elem) (s : string) : Elem :=
  match reverse (children elem) with
  | [] => Element (tag elem) (Some (default "" (text elem) +:+ s)) (tail elem) []
  | last_child :: front =>
      Element (tag elem) (text elem) (tail elem)
              (reverse front ++ [set_tail s last_child])
  end.

Definition add_item (elem : Elem) (it : item) : Elem :=
  match it with
  | Text s => add_text elem s
  | Child c => Element (tag elem) (text elem) (tail elem) (children elem ++ [c])
  end.

(** [E.tag(item, ...)]: a new element, the items added from left to right. *)
Definition E (tag : string) (items : list item) : Elem :=
  foldl add_item (Element tag None None []) items.

(** The children of [e] that carry tag [t]. *)
Definition children_tagged (t : string) (e : Elem) : list Elem :=
  filter (λ c, tag c = t) (children e).

(** [e.find(t)] / objectify's [e.t]: the first child with that tag. *)
Definition find_child (t : string) (e : Elem) : option Elem :=
  head (children_tagged t e).

(** ** Exceptions, logging and the transport *)

Inductive exn : Type :=
| MissingRequiredField (field : string)
| KeyError (key : string)
| AttributeError (name : string)
| AssertionError (expected got : Z)
| TypeError (what : string)
| CarrierError (request : string) (response : Elem)
| UnsupportedFeature (name : string)
| XMLSyntaxError
| TransportFailure (why : string).

Inductive result (A : Type) : Type :=
| Ok (a : A)
| Raise (e : exn).
Arguments Ok {A} a.
Arguments Raise {A} e.

(** What a call leaves behind besides its outcome: log records and the
    bodies posted to the carrier. *)
Inductive event : Type :=
| LogWarn (msg : string)
| LogDebug (msg : string)
| Posted (url body : string).

(** A computation: the events it produced and how it ended. *)
Definition M (A : Type) : Type := (list event * result A)%type.

Definition ret {A} (a : A) : M A := ([], Ok a).

Definition raise {A} (e : exn) : M A := ([], Raise e).

Definition bind {A B} (m : M A) (f : A → M B) : M B :=
  match m with
  | (log, Ok a) => let '(log', r) := f a in (log ++ log', r)
  | (log, Raise e) => (log, Raise e)
  end.

Definition lift {A} (r : result A) : M A := ([], r).

Definition emit (ev : event) : M unit := ([ev], Ok tt).

#[export] Instance M_ret : MRet M := @ret.
#[export] Instance M_bind : MBind M := λ A B f m, bind m f.

Definition outcome {A} (m : M A) : result A := m.2.
Definition events {A} (m : M A) : list event := m.1.

(** ** Arguments of a builder call *)

(** A keyword value: a string or an element built by another builder. *)
Inductive value : Type :=
| VStr (s : string)
| VElem (e : Elem).

Definition item_of (v : value) : item :=
  match v with
  | VStr s => Text s
  | VElem e => Child e
  end.

(** [d[key]] on a keyword dictionary. *)
Definition getitem (d : gmap string value) (key : string) : M value :=
  match d !! key with
  | Some v => ret v
  | None => raise (KeyError key)
  end.

(** ** base.py *)

Module BaseAPIClient.

(** Modelled from the spec: what [make_elements] of [base.py] takes for
    a required name that is present. A name is provided by a keyword of
    that name or by a positional element with that tag:
    [shipment_confirm_request_type] calls [label_specification_type],
    which requires [LabelPrintMethod], with two positional elements and
    no keyword. *)
Definition provided (name : string) (args : list Elem)
    (kwargs : gmap string value) : bool :=
  match kwargs !! name with
  | Some _ => true
  | None => existsb (λ a, String.eqb (tag a) name) args
  end.

(** Modelled from the spec: the element [make_elements] of [base.py]
    makes for one keyword, [E(tag, value)]: a new element named after
    the keyword, with a string as its text (the docstrings of
    [address_type] and [ship_phone_type] print [<City>City</City>] for
    [City='City']) and an element as its child. An element given
    under its own name, [Shipper=shipper_type(...)], is therefore found
    one level down, in a second element of the same name: "the tags
    would be nested. Eg. Shipper would repeat in a level", as
    [shipment_confirm_request_type] notes. *)
Definition keyword_element (kv : string * value) : Elem :=
  E kv.1 [item_of kv.2].

(** Modelled from the spec: [BaseAPIClient.make_elements] of [base.py],
    which is not part of the sources. Section 4.1: a builder "accepts
    positional/keyword values, validates required names are present
    (failing with a descriptive error naming the missing field), and
    emits a tree node with children ordered as populated"; section 7
    names the error MissingRequiredField. The first required name that
    is not provided is reported; otherwise every keyword yields one
    element, followed by the positional elements. *)
Definition make_elements (required_args : list string) (args : list Elem)
    (kwargs : gmap string value) : M (list Elem) :=
  match List.find (λ r, negb (provided r args kwargs)) required_args with
  | Some missing => raise (MissingRequiredField missing)
  | None => ret ((keyword_element <$> map_to_list kwargs) ++ args)
  end.

(** Does some node of the tree, the root included, satisfy [p]? *)
Fixpoint any_node (p : Elem → bool) (e : Elem) : bool :=
  p e || existsb (any_node p) (children e).

(** Modelled from the spec: [BaseAPIClient.look_for_error] of [base.py],
    which is not part of the sources. Section 4.2: "inspect for an error
    marker; if present, raise a carrier-error exception carrying the
    offending request/response"; section 7: "raised when the parsed
    response contains an embedded fault node, carrying the original
    request and response". Which node is the carrier's error marker is
    not said, so the test on a node is an argument. *)
Definition look_for_error (error_node : Elem → bool) (response : Elem)
    (request : string) : M unit :=
  if any_node error_node response
  then raise (CarrierError request response)
  else ret tt.

(** From where an attribute of the client is read: from an instance
    ([self.logger], in a method) or from the class itself ([cls.logger],
    in a classmethod). *)
Inductive owner : Type :=
| on_instance
| on_class.

(** What reading [logger] gives. *)
Inductive logger_attribute : Type :=
| a_logger
| property_object.

(** Modelled from the spec: the attribute [logger] of [BaseAPIClient] in
    [base.py], which is not part of the sources. Section 6 lists "a
    `logger` for diagnostic output" among what a client is given, and
    the [request] methods reach it as [self.logger]. It is a property of
    the client: read from an instance it is the logger; read from the
    class, it is the property object itself. *)
Definition logger (o : owner) : logger_attribute :=
  match o with
  | on_instance => a_logger
  | on_class => property_object
  end.

(** [logger.debug(msg)] and [logger.warn(msg)]: a logger records the
    message; a property object has no such method, and looking it up
    raises AttributeError. *)
Definition debug (l : logger_attribute) (msg : string) : M unit :=
  match l with
  | a_logger => emit (LogDebug msg)
  | property_object => raise (AttributeError "debug")
  end.

Definition warn (l : logger_attribute) (msg : string) : M unit :=
  match l with
  | a_logger => emit (LogWarn msg)
  | property_object => raise (AttributeError "warn")
  end.

End BaseAPIClient.
Import BaseAPIClient.

(** The attributes of a client instance set by [BaseAPIClient.__init__]. *)
Record client : Type := Client {
  access_request : Elem;
  sandbox : bool;
  return_xml : bool;
}.

(** What the clients take from outside this file: the table of base
    endpoints and the HTTP transport of [base.py], the serializer and the
    parser of lxml, and the carrier's error marker. *)
Record Env : Type := {
  base_url : string → string;
  send_request : string → string → result string;
  tostring : Elem → string;
  fromstring : string → result Elem;
  error_node : Elem → bool;
}.

(** [self.send_request(url, body)], recorded as an event. *)
Definition post (env : Env) (url body : string) : M string :=
  ([Posted url body], send_request env url body).

(** What [request] returns: the parsed response, with the request text
    when [return_xml] is set. *)
Inductive response : Type :=
| Parsed (r : Elem)
| WithRequest (full_request : string) (r : Elem).

Definition newline : string := String "010"%char "".
Definition quote : string := String "034"%char "".

(** The XML declaration that precedes each document of a request. *)
Definition xml_declaration : string :=
  "<?xml version=" +:+ quote +:+ "1.0" +:+ quote
  +:+ " encoding=" +:+ quote +:+ "UTF-8" +:+ quote +:+ " ?>".

(** ** class ShipmentMixin *)

Definition shipper_type (args : list Elem) (kwargs : gmap string value) : M Elem :=
  elements ← make_elements [] args kwargs;
  ret (E "Shipper" (Child <$> elements)).

Definition ship_to_type (args : list Elem) (kwargs : gmap string value) : M Elem :=
  elements ← make_elements [] args kwargs;
  ret (E "ShipTo" (Child <$> elements)).

(** [dict(pairs)]: a later pair overrides an earlier one with its key. *)
Definition dict {V} (pairs : list (string * V)) : gmap string V :=
  foldl (λ d kv, <[kv.1 := kv.2]> d) ∅ pairs.

Definition is_US_or_CA (country : option string) : bool :=
  match country with
  | Some c => String.eqb c "US" || String.eqb c "CA"
  | None => false
  end.

(** [address_type] is a classmethod: the logger it warns with is
    [cls.logger], read from the class. *)
Definition address_type (args : list Elem) (kwargs : gmap string value) : M Elem :=
  elements ← make_elements ["AddressLine1"; "City"] args kwargs;
  let data := dict ((λ e, (tag e, text e)) <$> elements) in
  match data !! "CountryCode", data !! "StateProviceCode" with
  | Some country, Some _ =>
      if is_US_or_CA country then ret tt
      else warn (logger on_class)
             "StateProvinceCode are required only for CA and US"
  | _, _ => ret tt
  end ;;
  ret (E "Address" (Child <$> elements)).

Definition ship_phone_type (args : list Elem) (kwargs : gmap string value) : M Elem :=
  elements ← make_elements ["Number"] args kwargs;
  ret (E "Phone" (Child <$> elements)).

Definition ship_from_type (args : list Elem) (kwargs : gmap string value) : M Elem :=
  elements ← make_elements [] args kwargs;
  ret (E "ShipFrom" (Child <$> elements)).

Definition package_type (args : list Elem) (kwargs : gmap string value) : M Elem :=
  elements ← make_elements ["PackagingType"; "PackageWeight"] args kwargs;
  ret (E "Package" (Child <$> elements)).

Definition service_type (args : list Elem) (kwargs : gmap string value) : M Elem :=
  elements ← make_elements ["Code"] args kwargs;
  ret (E "Service" (Child <$> elements)).

Definition packaging_type (args : list Elem) (kwargs : gmap string value) : M Elem :=
  elements ← make_elements ["Code"] args kwargs;
  ret (E "PackagingType" (Child <$> elements)).

(** The parameter [Weight] stands before [*args]: it is bound to the
    first positional argument, or to the keyword of that name (see
    [invoke] and [package_weight_type_by_keywords]). *)
Definition package_weight_type (Weight : value) (args : list Elem)
    (kwargs : gmap string value) : M Elem :=
  elements ← make_elements [] args kwargs;
  ret (E "PackageWeight"
         [Child (E "UnitOfMeasurement" (Child <$> elements));
          Child (E "Weight" [item_of Weight])]).

Definition dimensions_type (args : list Elem) (kwargs : gmap string value) : M Elem :=
  code ← getitem kwargs "Code";
  let uom_dict : gmap string value :=
    <["Code" := code]>
      (<["Description" := default (VStr "") (kwargs !! "Description")]> ∅) in
  elements ← make_elements ["Code"] [] uom_dict;
  length_ ← getitem kwargs "Length";
  width ← getitem kwargs "Width";
  height ← getitem kwargs "Height";
  ret (E "Dimensions"
         [Child (E "UnitOfMeasurement" (Child <$> elements));
          Child (E "Length" [item_of length_]);
          Child (E "Width" [item_of width]);
          Child (E "Height" [item_of height])]).

Definition package_service_options_type (args : list Elem)
    (kwargs : gmap string value) : M Elem :=
  elements ← make_elements ["InsuredValue"] args kwargs;
  ret (E "PackageServiceOptions" (Child <$> elements)).

Definition insured_value_type (args : list Elem) (kwargs : gmap string value) : M Elem :=
  elements ← make_elements ["MonetaryValue"] args kwargs;
  ret (E "InsuredValue" (Child <$> elements)).

Definition shipment_service_option_type (args : list Elem)
    (kwargs : gmap string value) : M Elem :=
  elements ← make_elements [] args kwargs;
  ret (E "ShipmentServiceOptions" (Child <$> elements)).

Definition payment_information_prepaid_type (args : list Elem)
    (kwargs : gmap string value) : M Elem :=
  elements ← make_elements ["AccountNumber"] args kwargs;
  ret (E "Prepaid" [Child (E "BillShipper" (Child <$> elements))]).

(** Modelled from the spec: the decorator [not_implemented_yet] of
    [base.py], which is not part of the sources. Section 7: the error
    UnsupportedFeature is "raised for deliberately unimplemented optional
    sub-elements (e.g., credit-card payment)". *)
Definition not_implemented_yet (name : string) : M Elem :=
  raise (UnsupportedFeature name).

Definition credit_card_type (args : list Elem) (kwargs : gmap string value) : M Elem :=
  not_implemented_yet "credit_card_type".

Definition rate_information_type (negotiated rate_chart : bool) : Elem :=
  let args := [] in
  let args := if negotiated then args ++ [E "NegotiatedRatesIndicator" []] else args in
  let args := if rate_chart then args ++ [E "RateChartIndicator" []] else args in
  E "RateInformation" (Child <$> args).

(** ** lxml.objectify: typed values of parsed leaves *)

Module objectify.

(** A Python value as [pyval] returns it. A float keeps its literal. *)
Inductive pyvalue : Type :=
| PyInt (z : Z)
| PyFloat (literal : string)
| PyBool (b : bool)
| PyStr (s : string).

Definition chars (s : string) : list ascii := list_ascii_of_string s.

Definition is_space (c : ascii) : bool :=
  let n := nat_of_ascii c in
  (n =? 32)%nat || ((9 <=? n)%nat && (n <=? 13)%nat).

Definition is_digit (c : ascii) : bool :=
  let n := nat_of_ascii c in (48 <=? n)%nat && (n <=? 57)%nat.

Definition lower (c : ascii) : ascii :=
  let n := nat_of_ascii c in
  if (65 <=? n)%nat && (n <=? 90)%nat then ascii_of_nat (n + 32) else c.

Fixpoint dropwhile (p : ascii → bool) (l : list ascii) : list ascii :=
  match l with
  | c :: l' => if p c then dropwhile p l' else l
  | [] => []
  end.

Fixpoint takewhile (p : ascii → bool) (l : list ascii) : list ascii :=
  match l with
  | c :: l' => if p c then c :: takewhile p l' else []
  | [] => []
  end.

(** [s.strip()] *)
Definition strip (l : list ascii) : list ascii :=
  reverse (dropwhile is_space (reverse (dropwhile is_space l))).

(** The number written by a non-empty run of decimal digits. *)
Definition digits_value (l : list ascii) : option Z :=
  match l with
  | [] => None
  | _ =>
      if forallb is_digit l
      then Some (foldl (λ acc c, 10 * acc + Z.of_nat (nat_of_ascii c - 48))%Z 0%Z l)
      else None
  end.

Definition signed (l : list ascii) : Z * list ascii :=
  match l with
  | "+"%char :: r => (1%Z, r)
  | "-"%char :: r => ((-1)%Z, r)
  | _ => (1%Z, l)
  end.

(** [int(s)]: blanks, an optional sign, decimal digits, blanks. *)
Definition check_int (s : string) : option Z :=
  let '(sign, body) := signed (strip (chars s)) in
  (λ n, sign * n)%Z <$> digits_value body.

(** [long(s)] of Python 2: as [int(s)], with an optional final [L]. *)
Definition check_long (s : string) : option Z :=
  let '(sign, body) := signed (strip (chars s)) in
  match reverse body with
  | c :: front =>
      let digits := if Ascii.eqb (lower c) "l" then reverse front else body in
      (λ n, sign * n)%Z <$> digits_value digits
  | [] => None
  end.

(** Digits, an optional point, digits; at least one digit in all. *)
Definition is_mantissa (l : list ascii) : bool :=
  let int_part := takewhile is_digit l in
  let rest := drop (length int_part) l in
  match rest with
  | [] => negb (Nat.eqb (length int_part) 0)
  | "."%char :: frac =>
      forallb is_digit frac
      && negb (Nat.eqb (length int_part + length frac) 0)
  | _ => false
  end.

Definition is_exponent (l : list ascii) : bool :=
  let '(_, body) := signed l in
  negb (Nat.eqb (length body) 0) && forallb is_digit body.

(** [float(s)]: blanks, an optional sign, then [inf], [infinity], [nan]
    or a decimal literal with an optional exponent. *)
Definition check_float (s : string) : bool :=
  let '(_, body) := signed (strip (chars s)) in
  let low := string_of_list_ascii (lower <$> body) in
  if String.eqb low "inf" || String.eqb low "infinity" || String.eqb low "nan"
  then true
  else
    let mant := takewhile (λ c, negb (Ascii.eqb c "e")) (lower <$> body) in
    match drop (length mant) (lower <$> body) with
    | [] => is_mantissa mant
    | _ :: exponent => is_mantissa mant && is_exponent exponent
    end.

Definition check_bool (s : string) : option bool :=
  if String.eqb s "true" then Some true
  else if String.eqb s "false" then Some false
  else if String.eqb s "1" then Some true
  else if String.eqb s "0" then Some false
  else None.

(** The value of a leaf: the registered type checks are tried in the
    order int, long, float, bool; a text that passes none is a string. *)
Definition guess (s : string) : pyvalue :=
  match check_int s with
  | Some z => PyInt z
  | None =>
      match check_long s with
      | Some z => PyInt z
      | None =>
          if check_float s then PyFloat s
          else match check_bool s with
               | Some b => PyBool b
               | None => PyStr s
               end
      end
  end.

(** [element.name]: the first child with that tag, or AttributeError. *)
Definition getattr (element : Elem) (name : string) : M Elem :=
  match find_child name element with
  | Some c => ret c
  | None => raise (AttributeError name)
  end.

(** [element.pyval]: only a data element, one without children, has a
    value; an empty one is the empty string. *)
Definition pyval (element : Elem) : M pyvalue :=
  match children element with
  | [] =>
      match text element with
      | None => ret (PyStr "")
      | Some s => ret (if String.eqb s "" then PyStr "" else guess s)
      end
  | _ => raise (AttributeError "pyval")
  end.

End objectify.

(** [E.tag(value)] for a Python value: lxml.builder takes strings and
    elements and rejects anything else. *)
Definition E_py (tag : string) (v : objectify.pyvalue) : M Elem :=
  match v with
  | objectify.PyStr s => ret (E tag [Text s])
  | _ => raise (TypeError "bad argument type")
  end.

(** ** class ShipmentConfirm *)

Module ShipmentConfirm.

Definition RequestAction : Elem := E "RequestAction" [Text "ShipConfirm"].

Definition RequestOption : Elem := E "RequestOption" [Text "nonvalidate"].

Definition TransactionReference : Elem :=
  E "TransactionReference" [Child (E "CustomerContext" [Text "unspecified"])].

Definition sold_to_type (args : list Elem) (kwargs : gmap string value) : M Elem :=
  not_implemented_yet "sold_to_type".

Definition payment_information_type (method : Elem) : Elem :=
  E "PaymentInformation" [Child method].

(** The check on the number of positional arguments shared by the two
    label builders. *)
Definition check_positional (args : list Elem) (kwargs : gmap string value) : M unit :=
  match args with
  | [] => ret tt
  | _ =>
      let len_args := Z.of_nat (length args) in
      let expected_length := (2 - Z.of_nat (size kwargs))%Z in
      if decide (len_args = expected_length) then ret tt
      else raise (AssertionError expected_length len_args)
  end.

Definition label_print_method_type (args : list Elem)
    (kwargs : gmap string value) : M Elem :=
  let values : gmap string value := kwargs ∪ {["Code" := VStr "GIF"]} in
  check_positional args kwargs ;;
  elements ← make_elements ["Code"] args values;
  ret (E "LabelPrintMethod" (Child <$> elements)).

Definition label_image_format_type (args : list Elem)
    (kwargs : gmap string value) : M Elem :=
  let values : gmap string value := kwargs ∪ {["Code" := VStr "GIF"]} in
  check_positional args kwargs ;;
  elements ← make_elements ["Code"] args values;
  ret (E "LabelImageFormat" (Child <$> elements)).

Definition label_specification_type (args : list Elem)
    (kwargs : gmap string value) : M Elem :=
  elements ← make_elements ["LabelPrintMethod"] args kwargs;
  ret (E "LabelSpecification" (Child <$> elements)).

Definition shipment_confirm_request_type (args : list Elem)
    (kwargs : gmap string value) : M Elem :=
  let request :=
    E "Request" [Child RequestAction; Child RequestOption;
                 Child TransactionReference] in
  '(label_specification, kwargs) ←
    match kwargs !! "LabelSpecification" with
    | None =>
        print_method ← label_print_method_type [] ∅;
        image_format ← label_image_format_type [] ∅;
        spec ← label_specification_type [print_method; image_format] ∅;
        ret (Child spec, kwargs)
    | Some v => ret (item_of v, delete "LabelSpecification" kwargs)
    end;
  elements ← make_elements
    ["Shipper"; "ShipTo"; "ShipFrom"; "Service"; "PaymentInformation"]
    args kwargs;
  let shipment_element := E "Shipment" (Child <$> elements) in
  ret (E "ShipmentConfirmRequest"
         [Child request; Child shipment_element; label_specification]).

Definition url (env : Env) (self : client) : string :=
  String.concat "/"
    [base_url env (if sandbox self then "sandbox" else "production");
     "ShipConfirm"].

Definition request (env : Env) (self : client)
    (shipment_confirm_request : Elem) : M response :=
  let full_request :=
    String.concat newline
      [xml_declaration; tostring env (access_request self);
       xml_declaration; tostring env shipment_confirm_request] in
  debug (logger on_instance) ("Request XML: " +:+ full_request) ;;
  result ← post env (url env self) full_request;
  debug (logger on_instance) ("Response Received: " +:+ result) ;;
  response ← lift (fromstring env result);
  look_for_error (error_node env) response full_request ;;
  if return_xml self then ret (WithRequest full_request response)
  else ret (Parsed response).

Definition extract_digest (response : Elem) : M objectify.pyvalue :=
  digest ← objectify.getattr response "ShipmentDigest";
  objectify.pyval digest.

End ShipmentConfirm.

(** ** class ShipmentAccept *)

Module ShipmentAccept.

Definition RequestAction : Elem := E "RequestAction" [Text "ShipAccept"].

Definition RequestOption : Elem := E "RequestOption" [Text "nonvalidate"].

Definition TransactionReference : Elem :=
  E "TransactionReference" [Child (E "CustomerContext" [Text "unspecified"])].

Definition shipment_accept_request_type (digest : objectify.pyvalue) : M Elem :=
  let request :=
    E "Request" [Child RequestAction; Child RequestOption;
                 Child TransactionReference] in
  digest_element ← E_py "ShipmentDigest" digest;
  ret (E "ShipmentAcceptRequest" [Child request; Child digest_element]).

Definition url (env : Env) (self : client) : string :=
  String.concat "/"
    [base_url env (if sandbox self then "sandbox" else "production");
     "ShipAccept"].

Definition request (env : Env) (self : client)
    (shipment_accept_request : Elem) : M response :=
  let full_request :=
    String.concat newline
      [xml_declaration; tostring env (access_request self);
       xml_declaration; tostring env shipment_accept_request] in
  debug (logger on_instance) ("Request XML: " +:+ full_request) ;;
  result ← post env (url env self) full_request;
  debug (logger on_instance) ("Response Received: " +:+ result) ;;
  response ← lift (fromstring env result);
  look_for_error (error_node env) response full_request ;;
  if return_xml self then ret (WithRequest full_request response)
  else ret (Parsed response).

End ShipmentAccept.

(** ** class ShipmentVoid *)

Module ShipmentVoid.

Definition RequestAction : Elem := E "RequestAction" [Text "Void"].

Definition RequestOption : Elem := E "RequestOption" [Text ""].

Definition TransactionReference : Elem :=
  E "TransactionReference" [Child (E "CustomerContext" [Text "unspecified"])].

Definition void_shipment_request_type (shipment_id : string)
    (tracking_ids : list string) : Elem :=
  let request :=
    E "Request" [Child RequestAction; Child RequestOption;
                 Child TransactionReference] in
  let expanded_void_shipment :=
    (λ packet, E "TrackingNumber" [Text packet]) <$> tracking_ids in
  let expanded_void_shipment :=
    E "ShipmentIdentificationNumber" [Text shipment_id]
      :: expanded_void_shipment in
  E "VoidShipmentRequest"
    [Child request;
     Child (E "ExpandedVoidShipment" (Child <$> expanded_void_shipment))].

Definition url (env : Env) (self : client) : string :=
  String.concat "/"
    [base_url env (if sandbox self then "sandbox" else "production");
     "Void"].

Definition request (env : Env) (self : client)
    (shipment_void_request : Elem) : M response :=
  let full_request :=
    String.concat newline
      [xml_declaration; tostring env (access_request self);
       xml_declaration; tostring env shipment_void_request] in
  debug (logger on_instance) ("Request XML: " +:+ full_request) ;;
  result ← post env (url env self) full_request;
  debug (logger on_instance) ("Response Received: " +:+ result) ;;
  response ← lift (fromstring env result);
  look_for_error (error_node env) response full_request ;;
  if return_xml self then ret (WithRequest full_request response)
  else ret (Parsed response).

End ShipmentVoid.

(** ** lxml elements as objects

    The class attributes [RequestAction], [RequestOption] and
    [TransactionReference] are created once, when the class body runs,
    and every call of a request builder passes the same three objects to
    [E.Request]. An lxml element has one parent: appending an element
    that already has a parent moves it. This part keeps the elements in
    a heap, so that an element used twice is one object. The values
    above are the trees read off this heap. *)

Module Objects.

Abbreviation ref := nat.

Record node : Type := Node {
  n_tag : string;
  n_text : option string;
  n_tail : option string;
  n_children : list ref;
  n_parent : option ref;
}.

(** The elements made so far; an element is known by its index. *)
Abbreviation heap := (list node).

Definition St (A : Type) : Type := heap → A * heap.

#[export] Instance St_ret : MRet St := λ A a h, (a, h).
#[export] Instance St_bind : MBind St :=
  λ A B f m h, let '(a, h') := m h in f a h'.

Definition new_element (t : string) : St ref :=
  λ h, (length h, h ++ [Node t None None [] None]).

Definition remove_child (child : ref) (n : node) : node :=
  Node (n_tag n) (n_text n) (n_tail n)
       (filter (λ c, c ≠ child) (n_children n)) (n_parent n).

Definition add_child (child : ref) (n : node) : node :=
  Node (n_tag n) (n_text n) (n_tail n) (n_children n ++ [child]) (n_parent n).

Definition set_parent (parent : option ref) (n : node) : node :=
  Node (n_tag n) (n_text n) (n_tail n) (n_children n) parent.

(** Unlink an element from the parent it has, if any. *)
Definition detach (child : ref) (h : heap) : heap :=
  match h !! child ≫= n_parent with
  | Some old => alter (remove_child child) old h
  | None => h
  end.

(** [parent.append(child)]: the child leaves its former parent and
    becomes the last child of [parent]. *)
Definition append (parent child : ref) : St unit :=
  λ h,
    let h := detach child h in
    let h := alter (set_parent (Some parent)) child h in
    (tt, alter (add_child child) parent h).

Definition append_text (s : string) (n : node) : node :=
  Node (n_tag n) (Some (default "" (n_text n) +:+ s)) (n_tail n)
       (n_children n) (n_parent n).

Definition append_tail (s : string) (n : node) : node :=
  Node (n_tag n) (n_text n) (Some (default "" (n_tail n) +:+ s))
       (n_children n) (n_parent n).

Definition add_text (elem : ref) (s : string) : St unit :=
  λ h,
    match last (default [] (n_children <$> h !! elem)) with
    | None => (tt, alter (append_text s) elem h)
    | Some last_child => (tt, alter (append_tail s) last_child h)
    end.

Inductive item : Type :=
| Text (s : string)
| Child (r : ref).

#[global] Instance item_eq_dec : EqDecision item.
Proof. solve_decision. Defined.

Fixpoint add_items (elem : ref) (items : list item) : St unit :=
  match items with
  | [] => mret tt
  | Text s :: items' => add_text elem s ;; add_items elem items'
  | Child c :: items' => append elem c ;; add_items elem items'
  end.

Definition E (t : string) (items : list item) : St ref :=
  elem ← new_element t;
  add_items elem items ;;
  mret elem.

(** The three class attributes of a client class. *)
Record templates : Type := Templates {
  RequestAction : ref;
  RequestOption : ref;
  TransactionReference : ref;
}.

(** The body of a client class: its three attributes are built once. *)
Definition class_body (action option : string) : St templates :=
  request_action ← E "RequestAction" [Text action];
  request_option ← E "RequestOption" [Text option];
  customer_context ← E "CustomerContext" [Text "unspecified"];
  transaction_reference ← E "TransactionReference" [Child customer_context];
  mret (Templates request_action request_option transaction_reference).

Record classes : Type := Classes {
  ShipmentConfirm : templates;
  ShipmentAccept : templates;
  ShipmentVoid : templates;
}.

(** Importing the module runs the three class bodies in order. *)
Definition import_module : St classes :=
  confirm ← class_body "ShipConfirm" "nonvalidate";
  accept ← class_body "ShipAccept" "nonvalidate";
  void ← class_body "Void" "";
  mret (Classes confirm accept void).

(** The statement all three request builders begin with:
    [request = E.Request(cls.RequestAction, cls.RequestOption,
    cls.TransactionReference)]. *)
Definition request_element (cls : templates) : St ref :=
  E "Request" [Child (RequestAction cls); Child (RequestOption cls);
               Child (TransactionReference cls)].

Definition shipment_accept_request_type (cls : templates)
    (digest : string) : St ref :=
  request ← request_element cls;
  digest_element ← E "ShipmentDigest" [Text digest];
  E "ShipmentAcceptRequest" [Child request; Child digest_element].

Fixpoint tracking_numbers (tracking_ids : list string) : St (list ref) :=
  match tracking_ids with
  | [] => mret []
  | packet :: rest =>
      number ← E "TrackingNumber" [Text packet];
      numbers ← tracking_numbers rest;
      mret (number :: numbers)
  end.

Definition void_shipment_request_type (cls : templates)
    (shipment_id : string) (tracking_ids : list string) : St ref :=
  request ← request_element cls;
  expanded_void_shipment ← tracking_numbers tracking_ids;
  identification ← E "ShipmentIdentificationNumber" [Text shipment_id];
  let expanded_void_shipment := identification :: expanded_void_shipment in
  expanded ← E "ExpandedVoidShipment" (Child <$> expanded_void_shipment);
  E "VoidShipmentRequest" [Child request; Child expanded].

(** The tree below an element, read off the heap. *)
Fixpoint tree_of (fuel : nat) (h : heap) (r : ref) : option Elem :=
  match fuel with
  | O => None
  | S fuel' =>
      match h !! r with
      | Some n =>
          match mapM (tree_of fuel' h) (n_children n) with
          | Some cs => Some (Element (n_tag n) (n_text n) (n_tail n) cs)
          | None => None
          end
      | None => None
      end
  end.

Definition snapshot (h : heap) (r : ref) : option Elem :=
  tree_of (length h) h r.

(** [element.getparent()] *)
Definition getparent (h : heap) (r : ref) : option ref :=
  h !! r ≫= n_parent.

End Objects.

(** ** The builders that take positional and keyword arguments *)

(** One name per builder of the module with the signature
    [(cls, *args, **kwargs)]; [package_weight_type], whose signature is
    [(cls, Weight, *args, **kwargs)], comes with the value bound to
    [Weight]. *)
Inductive builder : Type :=
| b_shipper_type
| b_ship_to_type
| b_address_type
| b_ship_phone_type
| b_ship_from_type
| b_package_type
| b_service_type
| b_packaging_type
| b_package_weight_type (Weight : value)
| b_dimensions_type
| b_package_service_options_type
| b_insured_value_type
| b_shipment_service_option_type
| b_payment_information_prepaid_type
| b_label_print_method_type
| b_label_image_format_type
| b_label_specification_type
| b_shipment_confirm_request_type.

Definition call (b : builder) : list Elem → gmap string value → M Elem :=
  match b with
  | b_shipper_type => shipper_type
  | b_ship_to_type => ship_to_type
  | b_address_type => address_type
  | b_ship_phone_type => ship_phone_type
  | b_ship_from_type => ship_from_type
  | b_package_type => package_type
  | b_service_type => service_type
  | b_packaging_type => packaging_type
  | b_package_weight_type Weight => package_weight_type Weight
  | b_dimensions_type => dimensions_type
  | b_package_service_options_type => package_service_options_type
  | b_insured_value_type => insured_value_type
  | b_shipment_service_option_type => shipment_service_option_type
  | b_payment_information_prepaid_type => payment_information_prepaid_type
  | b_label_print_method_type => ShipmentConfirm.label_print_method_type
  | b_label_image_format_type => ShipmentConfirm.label_image_format_type
  | b_label_specification_type => ShipmentConfirm.label_specification_type
  | b_shipment_confirm_request_type =>
      ShipmentConfirm.shipment_confirm_request_type
  end.

(** The parameters of a builder that are bound before [**kwargs] takes
    the keywords: [cls], bound to the class, and for
    [package_weight_type] its [Weight], bound to the first positional
    argument. *)
Definition named (b : builder) : list string :=
  match b with
  | b_package_weight_type _ => ["cls"; "Weight"]
  | _ => ["cls"]
  end.

(** The call of a builder on the class with the positional arguments
    [args] and the keywords [keywords]; for [package_weight_type] the
    first positional argument is [Weight] and [args] are the further
    ones. A keyword that names a parameter which is bound already is a
    second value for it: Python raises TypeError ("got multiple values
    for keyword argument", followed by the name) and the body does not
    run. *)
Definition invoke (b : builder) (args : list Elem)
    (keywords : gmap string value) : M Elem :=
  if forallb (λ n, bool_decide (keywords !! n = None)) (named b)
  then call b args keywords
  else raise (TypeError "got multiple values for keyword argument").

(** The call of [package_weight_type] with keywords only, without
    positional arguments: [Weight] is bound to the keyword of that
    name, which does not reach [**kwargs]; without it the call is a
    TypeError ("takes at least 2 arguments (1 given)"). *)
Definition package_weight_type_by_keywords
    (keywords : gmap string value) : M Elem :=
  match keywords !! "Weight" with
  | Some Weight =>
      invoke (b_package_weight_type Weight) [] (delete "Weight" keywords)
  | None =>
      if bool_decide (keywords !! "cls" = None)
      then raise (TypeError "takes at least 2 arguments")
      else raise (TypeError "got multiple values for keyword argument")
  end.

(** The required names a builder gives to [make_elements]. *)
Definition required (b : builder) : list string :=
  match b with
  | b_address_type => ["AddressLine1"; "City"]
  | b_ship_phone_type => ["Number"]
  | b_package_type => ["PackagingType"; "PackageWeight"]
  | b_service_type | b_packaging_type | b_dimensions_type
  | b_label_print_method_type | b_label_image_format_type => ["Code"]
  | b_package_service_options_type => ["InsuredValue"]
  | b_insured_value_type => ["MonetaryValue"]
  | b_payment_information_prepaid_type => ["AccountNumber"]
  | b_label_specification_type => ["LabelPrintMethod"]
  | b_shipment_confirm_request_type =>
      ["Shipper"; "ShipTo"; "ShipFrom"; "Service"; "PaymentInformation"]
  | _ => []
  end.


(** The fields a builder fills in by itself when the caller omits them. *)
Definition defaults (b : builder) : list string :=
  match b with
  | b_label_print_method_type | b_label_image_format_type => ["Code"]
  | b_shipment_confirm_request_type => ["LabelSpecification"]
  | b_dimensions_type => ["Description"]
  | _ => []
  end.

(** [dimensions_type] reads its keywords one by one; every other builder
    hands the caller's keywords to [make_elements]. *)
Definition forwards (b : builder) : bool :=
  match b with
  | b_dimensions_type => false
  | _ => true
  end.

(** The two label builders count their positional arguments. *)
Definition counts_positional (b : builder) : bool :=
  match b with
  | b_label_print_method_type | b_label_image_format_type => true
  | _ => false
  end.

(** The keywords a builder takes out of the dictionary before
    [make_elements] sees it. *)
Definition popped (b : builder) : list string :=
  match b with
  | b_shipment_confirm_request_type => ["LabelSpecification"]
  | _ => []
  end.

(** The dictionary a builder hands to [make_elements]. *)
Definition handed (b : builder) (kwargs : gmap string value) : gmap string value :=
  match b with
  | b_label_print_method_type | b_label_image_format_type =>
      kwargs ∪ {["Code" := VStr "GIF"]}
  | b_shipment_confirm_request_type => delete "LabelSpecification" kwargs
  | _ => kwargs
  end.

(** The element under which a builder puts the elements of its call:
    the returned element, or the one child that wraps them. *)
Definition container (b : builder) (e : Elem) : option Elem :=
  match b with
  | b_package_weight_type _ => find_child "UnitOfMeasurement" e
  | b_dimensions_type => find_child "UnitOfMeasurement" e
  | b_payment_information_prepaid_type => find_child "BillShipper" e
  | b_shipment_confirm_request_type => find_child "Shipment" e
  | _ => Some e
  end.

(** No positional element of the call carries tag [t]. *)
Definition tag_free (t : string) (args : list Elem) : bool :=
  forallb (λ e, negb (String.eqb (tag e) t)) args.

(** The text of the element of a keyword: the string itself, and none
    for an element. *)
Definition keyword_text (v : value) : option string :=
  match v with
  | VStr s => Some s
  | VElem _ => None
  end.

(** The test of [address_type] on the elements of an address: a country
    and a state code are both there, and the country is neither US nor
    CA. *)
Definition state_code_abroad (elements : list Elem) : bool :=
  let data := dict ((λ e, (tag e, text e)) <$> elements) in
  match data !! "CountryCode", data !! "StateProviceCode" with
  | Some country, Some _ => negb (is_US_or_CA country)
  | _, _ => false
  end.

(** A leaf element with a text. *)
Definition leaf (t s : string) : Elem := Element t (Some s) None [].

(** The label specification for GIF labels. *)
Definition default_label_specification : Elem :=
  Element "LabelSpecification" None None
    [Element "LabelPrintMethod" None None [leaf "Code" "GIF"];
     Element "LabelImageFormat" None None [leaf "Code" "GIF"]].

(** The descendant reached by following the first child of each tag. *)
Fixpoint at_path (path : list string) (e : Elem) : option Elem :=
  match path with
  | [] => Some e
  | t :: path' =>
      match find_child t e with
      | Some c => at_path path' c
      | None => None
      end
  end.

Definition text_at (path : list string) (e : Elem) : option string :=
  match at_path path e with
  | Some c => text c
  | None => None
  end.

(** The bodies posted by a computation, in order. *)
Definition posted (log : list event) : list (string * string) :=
  omap (λ ev, match ev with Posted u b => Some (u, b) | _ => None end) log.

(** The three clients. *)
Inductive api : Type := ShipConfirm | ShipAccept | Void.

Definition request_of (a : api) : Env → client → Elem → M response :=
  match a with
  | ShipConfirm => ShipmentConfirm.request
  | ShipAccept => ShipmentAccept.request
  | Void => ShipmentVoid.request
  end.

Definition url_of (a : api) : Env → client → string :=
  match a with
  | ShipConfirm => ShipmentConfirm.url
  | ShipAccept => ShipmentAccept.url
  | Void => ShipmentVoid.url
  end.

(** The access credentials document followed by the business document,
    each after its own XML declaration. *)
Definition two_documents (env : Env) (self : client) (document : Elem) : string :=
  xml_declaration +:+ newline +:+ tostring env (access_request self)
  +:+ newline +:+
  xml_declaration +:+ newline +:+ tostring env document.

(** ** Sample calls *)


Definition address_with_line2 : gmap string value :=
  <["AddressLine1" := VStr "Line1"]>
    (<["AddressLine2" := VStr "Line2"]> {["City" := VStr "City"]}).

Definition address_in (country : string) : gmap string value :=
  <["AddressLine1" := VStr "Line1"]>
    (<["City" := VStr "City"]>
       (<["CountryCode" := VStr country]> {["StateProviceCode" := VStr "X"]})).

Definition sample_shipment : gmap string value :=
  <["Shipper" := VElem (E "Shipper" [])]>
    (<["ShipTo" := VElem (E "ShipTo" [])]>
       (<["ShipFrom" := VElem (E "ShipFrom" [])]>
          (<["Service" := VElem (E "Service" [Child (leaf "Code" "03")])]>
             {["PaymentInformation" := VElem (E "PaymentInformation" [])]}))).




(** A carrier that answers every request with an error document. *)
Definition failing_carrier : Env :=
  {| base_url := λ mode, "https://example.invalid/" +:+ mode;
     send_request := λ _ _, Ok "<Error/>";
     tostring := tag;
     fromstring := λ _, Ok (E "Response" [Child (E "Error" [])]);
     error_node := λ e, String.eqb (tag e) "Error" |}.

Definition sample_client : client :=
  {| access_request := E "AccessRequest" [];
     sandbox := true;
     return_xml := false |}.

(** ** Further sample data and tables *)

(** A carrier that accepts every request and answers with a digest. *)
Definition answering_carrier : Env :=
  {| base_url := λ mode, "https://example.invalid/" +:+ mode;
     send_request := λ _ _, Ok "<ShipmentConfirmResponse/>";
     tostring := tag;
     fromstring := λ _,
       Ok (E "ShipmentConfirmResponse" [Child (leaf "ShipmentDigest" "abc123")]);
     error_node := λ e, String.eqb (tag e) "Error" |}.

(** A transport that cannot reach the carrier. *)
Definition unreachable_carrier : Env :=
  {| base_url := λ mode, "https://example.invalid/" +:+ mode;
     send_request := λ _ _, Raise (TransportFailure "connection refused");
     tostring := tag;
     fromstring := λ _, Raise XMLSyntaxError;
     error_node := λ e, String.eqb (tag e) "Error" |}.

(** The [Request] element of a document: the action of the API, the
    processing option and the transaction reference. *)
Definition request_header (action option : string) : Elem :=
  Element "Request" None None
    [leaf "RequestAction" action; leaf "RequestOption" option;
     Element "TransactionReference" None None
       [leaf "CustomerContext" "unspecified"]].



(** The tag of the element each builder returns. *)
Definition root_tag (b : builder) : string :=
  match b with
  | b_shipper_type => "Shipper"
  | b_ship_to_type => "ShipTo"
  | b_address_type => "Address"
  | b_ship_phone_type => "Phone"
  | b_ship_from_type => "ShipFrom"
  | b_package_type => "Package"
  | b_service_type => "Service"
  | b_packaging_type => "PackagingType"
  | b_package_weight_type _ => "PackageWeight"
  | b_dimensions_type => "Dimensions"
  | b_package_service_options_type => "PackageServiceOptions"
  | b_insured_value_type => "InsuredValue"
  | b_shipment_service_option_type => "ShipmentServiceOptions"
  | b_payment_information_prepaid_type => "Prepaid"
  | b_label_print_method_type => "LabelPrintMethod"
  | b_label_image_format_type => "LabelImageFormat"
  | b_label_specification_type => "LabelSpecification"
  | b_shipment_confirm_request_type => "ShipmentConfirmRequest"
  end.


(** Five elements of a shipment, for positional use. *)
Definition positional_shipment : list Elem :=
  [E "Shipper" []; E "ShipTo" []; E "ShipFrom" [];
   E "Service" [Child (leaf "Code" "03")];
   ShipmentConfirm.payment_information_type (E "Prepaid" [])].



(** The keywords of a shipment made of five elements. *)
Definition shipment_of (shipper ship_to ship_from service payment : Elem) :
    gmap string value :=
  <["Shipper" := VElem shipper]>
    (<["ShipTo" := VElem ship_to]>
       (<["ShipFrom" := VElem ship_from]>
          (<["Service" := VElem service]>
             {["PaymentInformation" := VElem payment]}))).

(** The tag and the text of an element of the heap. *)
Definition content (h : list Objects.node) (r : nat) :
    option (string * option string) :=
  (λ n, (Objects.n_tag n, Objects.n_text n)) <$> h !! r.

(** The classes and the heap of a freshly imported module. *)
Definition fresh_classes : Objects.classes := (Objects.import_module []).1.
Definition fresh_heap : list Objects.node := (Objects.import_module []).2.

Definition shipment_with_label_text : gmap string value :=
  <["LabelSpecification" := VStr "GIF"]> sample_shipment.

(** * Properties *)

(** ** Elements and computations *)

Lemma foldl_add_children (root : Elem) (cs : list Elem) :
  foldl add_item root (Child <$> cs)
  = Element (tag root) (text root) (tail root) (children root ++ cs).
Proof.
  revert root. induction cs as [|c cs IH]; intros root; simpl.
  - rewrite app_nil_r. by destruct root.
  - rewrite IH. simpl. by rewrite <- app_assoc.
Qed.

Lemma E_children (t : string) (cs : list Elem) :
  E t (Child <$> cs) = Element t None None cs.
Proof. unfold E. by rewrite foldl_add_children. Qed.

Lemma bind_ret {A B} (a : A) (f : A → M B) : ret a ≫= f = f a.
Proof.
  unfold mbind, M_bind, bind, ret. by destruct (f a).
Qed.

Lemma add_item_tag (elem : Elem) (it : item) : tag (add_item elem it) = tag elem.
Proof.
  destruct it as [s|c]; [|done]. unfold add_item, add_text.
  by destruct (reverse (children elem)).
Qed.

Lemma E_tag (t : string) (items : list item) : tag (E t items) = t.
Proof.
  assert (∀ root, tag (foldl add_item root items) = tag root) as H.
  { induction items as [|it items IH]; intros root; [done|].
    simpl. by rewrite IH, add_item_tag. }
  unfold E. by rewrite H.
Qed.

(** The element of a keyword carries the keyword as its tag; it holds a
    string as its text and an element as its only child. *)
Lemma keyword_element_tag (kv : string * value) : tag (keyword_element kv) = kv.1.
Proof. apply E_tag. Qed.

Lemma keyword_element_string (k s : string) :
  keyword_element (k, VStr s) = Element k (Some s) None [].
Proof. reflexivity. Qed.

Lemma keyword_element_element (k : string) (x : Elem) :
  keyword_element (k, VElem x) = Element k None None [x].
Proof. reflexivity. Qed.

(** ** [make_elements] *)



Lemma find_none_all (req : list string) (p : string → bool) :
  List.find (λ x, negb (p x)) req = None ↔ ∀ r, r ∈ req → p r = true.
Proof.
  induction req as [|x req IH]; simpl.
  - split; [|done]. intros _ r Hr. by apply elem_of_nil in Hr.
  - destruct (p x) eqn:Hx; simpl.
    + rewrite IH. split.
      * intros H r Hr. apply elem_of_cons in Hr as [->|]; auto.
      * intros H r Hr. apply H. by right.
    + split; [done|]. intros H. rewrite H in Hx; [done|by left].
Qed.


Lemma make_elements_provided req args kwargs :
  (∀ r, r ∈ req → provided r args kwargs = true) →
  make_elements req args kwargs
  = ret ((keyword_element <$> map_to_list kwargs) ++ args).
Proof.
  intros Hall. unfold make_elements.
  by rewrite (proj2 (find_none_all req (λ x, provided x args kwargs))).
Qed.

(** [make_elements] either reports a missing name or returns, without
    logging, one element per keyword followed by the positional ones. *)
Lemma make_elements_cases req args kwargs :
  (∃ r, r ∈ req ∧ provided r args kwargs = false
        ∧ make_elements req args kwargs = raise (MissingRequiredField r))
  ∨ ((∀ r, r ∈ req → provided r args kwargs = true)
     ∧ make_elements req args kwargs
       = ret ((keyword_element <$> map_to_list kwargs) ++ args)).
Proof.
  unfold make_elements.
  destruct (List.find _ req) as [r|] eqn:Hfind.
  - left. exists r. apply find_some in Hfind as [Hin Hr].
    split; [by apply list_elem_of_In|]. split; [|done].
    by apply negb_true_iff in Hr.
  - right. split; [|done]. by apply find_none_all.
Qed.


(** ** The label specification built when none is given *)

(** The choice of the label specification never fails and never logs. *)
Lemma label_specification_choice (kwargs : gmap string value) :
  match kwargs !! "LabelSpecification" with
  | None =>
      print_method ← ShipmentConfirm.label_print_method_type [] ∅;
      image_format ← ShipmentConfirm.label_image_format_type [] ∅;
      spec ← ShipmentConfirm.label_specification_type
                [print_method; image_format] ∅;
      ret (Child spec, kwargs)
  | Some v => ret (item_of v, delete "LabelSpecification" kwargs)
  end
  = ret (match kwargs !! "LabelSpecification" with
         | None => (Child default_label_specification, kwargs)
         | Some v => (item_of v, delete "LabelSpecification" kwargs)
         end).
Proof.
  destruct (kwargs !! "LabelSpecification") as [v|]; [done|].
  vm_compute. reflexivity.
Qed.

(** ** Which elements carry a tag *)

Lemma tag_free_spec (t : string) args :
  tag_free t args = true ↔ Forall (λ a, tag a ≠ t) args.
Proof.
  unfold tag_free. rewrite forallb_forall, Forall_forall. split.
  - intros H a Hin. apply list_elem_of_In in Hin.
    specialize (H a Hin). apply negb_true_iff in H. by apply String.eqb_neq.
  - intros H a Hin. apply list_elem_of_In in Hin.
    apply negb_true_iff, String.eqb_neq. by apply H.
Qed.

Lemma filter_none {A} (P : A → Prop) `{∀ x, Decision (P x)} (l : list A) :
  Forall (λ x, ¬ P x) l → filter P l = [].
Proof.
  induction 1 as [|x l Hx _ IH]; [done|]. by rewrite filter_cons_False.
Qed.

Lemma tag_free_filter (t : string) args :
  tag_free t args = true → filter (λ a, tag a = t) args = [].
Proof. intros H%tag_free_spec. by apply filter_none. Qed.

(** The elements made for keywords are selected by tag as the keywords
    are by name. *)
Lemma keyword_elements_filter (t : string) (l : list (string * value)) :
  filter (λ c, tag c = t) (keyword_element <$> l)
  = keyword_element <$> filter (λ kv, kv.1 = t) l.
Proof.
  induction l as [|kv l IH]; [done|].
  rewrite fmap_cons, !filter_cons, keyword_element_tag, IH.
  by destruct (decide (kv.1 = t)).
Qed.

Lemma filter_key_absent {V} (t : string) (l : list (string * V)) :
  t ∉ l.*1 → filter (λ kv, kv.1 = t) l = [].
Proof.
  intros Hnot. apply filter_none, Forall_forall. intros [k v] Hin Heq.
  simpl in Heq. subst k. apply Hnot. apply list_elem_of_fmap. by exists (t, v).
Qed.

Lemma filter_key_present {V} (t : string) (v : V) (l : list (string * V)) :
  NoDup l.*1 → (t, v) ∈ l → filter (λ kv, kv.1 = t) l = [(t, v)].
Proof.
  induction l as [|[k w] l IH]; intros Hnodup Hin.
  - by apply elem_of_nil in Hin.
  - rewrite fmap_cons in Hnodup. apply NoDup_cons in Hnodup as [Hk Hnodup].
    apply elem_of_cons in Hin as [Heq|Hin].
    + injection Heq as <- <-. rewrite filter_cons_True by done.
      by rewrite filter_key_absent.
    + rewrite filter_cons_False; [by apply IH|].
      simpl. intros ->. apply Hk. apply list_elem_of_fmap. by exists (t, v).
Qed.

(** A dictionary holds at most one pair per name. *)
Lemma keywords_named {V} (t : string) (m : gmap string V) :
  filter (λ kv, kv.1 = t) (map_to_list m)
  = match m !! t with Some v => [(t, v)] | None => [] end.
Proof.
  destruct (m !! t) as [v|] eqn:Hlook.
  - apply filter_key_present; [apply NoDup_fst_map_to_list|].
    by apply elem_of_map_to_list.
  - apply filter_key_absent.
    intros ([k v] & Heq & Hin)%list_elem_of_fmap. simpl in Heq. subst k.
    apply elem_of_map_to_list in Hin. congruence.
Qed.

(** Among the elements [make_elements] returns, those with tag [t] are
    the element of the keyword [t], if there is one, and the positional
    elements with that tag. *)
Lemma elements_tagged (t : string) args (kwargs : gmap string value) :
  filter (λ c, tag c = t) ((keyword_element <$> map_to_list kwargs) ++ args)
  = match kwargs !! t with
    | Some v => [keyword_element (t, v)]
    | None => []
    end ++ filter (λ a, tag a = t) args.
Proof.
  rewrite filter_app, keyword_elements_filter, keywords_named.
  by destruct (kwargs !! t).
Qed.

(** ** Dictionaries built from pairs *)

Lemma dict_snoc {V} (pairs : list (string * V)) (kv : string * V) :
  dict (pairs ++ [kv]) = <[kv.1 := kv.2]> (dict pairs).
Proof. unfold dict. by rewrite foldl_snoc. Qed.

(** A dictionary built from pairs holds, for a key, the value of the
    last pair with that key. *)
Lemma dict_lookup {V} (pairs : list (string * V)) (k : string) :
  dict pairs !! k = snd <$> last (filter (λ kv, kv.1 = k) pairs).
Proof.
  induction pairs as [|kv pairs IH] using rev_ind; [done|].
  rewrite dict_snoc, filter_app. destruct (decide (kv.1 = k)) as [Heq|Hne].
  - rewrite filter_cons_True, filter_nil, last_snoc by done.
    rewrite Heq. by rewrite lookup_insert_eq.
  - rewrite filter_cons_False, filter_nil, app_nil_r by done.
    by rewrite lookup_insert_ne.
Qed.

Lemma filter_tag_text (k : string) (elements : list Elem) :
  filter (λ kv : string * option string, kv.1 = k)
         ((λ e, (tag e, text e)) <$> elements)
  = (λ e, (tag e, text e)) <$> filter (λ e, tag e = k) elements.
Proof.
  induction elements as [|e elements IH]; [done|].
  rewrite fmap_cons, !filter_cons. simpl. rewrite IH.
  by destruct (decide (tag e = k)).
Qed.

(** What [address_type] reads for a tag: the text of the last element
    with that tag. *)
Lemma data_lookup (t : string) (elements : list Elem) :
  dict ((λ e, (tag e, text e)) <$> elements) !! t
  = text <$> last (filter (λ e, tag e = t) elements).
Proof.
  rewrite dict_lookup, filter_tag_text, fmap_last.
  by destruct (last _).
Qed.

(** With no positional element of that tag, what [address_type] reads
    for a tag is the text of the keyword's element. *)
Lemma data_lookup_keyword (t : string) args (kwargs : gmap string value) :
  tag_free t args = true →
  dict ((λ e, (tag e, text e))
          <$> (keyword_element <$> map_to_list kwargs) ++ args) !! t
  = keyword_text <$> kwargs !! t.
Proof.
  intros Hfree. rewrite data_lookup, elements_tagged, tag_free_filter by done.
  rewrite app_nil_r. by destruct (kwargs !! t) as [[s|x]|].
Qed.



(** ** What a builder call comes to *)

Lemma confirm_unfold args kwargs :
  ShipmentConfirm.shipment_confirm_request_type args kwargs =
  (let chosen := match kwargs !! "LabelSpecification" with
         | None => (Child default_label_specification, kwargs)
         | Some v => (item_of v, delete "LabelSpecification" kwargs)
         end in
   elements ← make_elements
    ["Shipper"; "ShipTo"; "ShipFrom"; "Service"; "PaymentInformation"]
    args chosen.2;
   ret (E "ShipmentConfirmRequest"
         [Child (E "Request" [Child ShipmentConfirm.RequestAction; Child ShipmentConfirm.RequestOption;
                 Child ShipmentConfirm.TransactionReference]); Child (E "Shipment" (Child <$> elements)); chosen.1])).
Proof.
  unfold ShipmentConfirm.shipment_confirm_request_type.
  rewrite label_specification_choice. rewrite bind_ret.
  by destruct (kwargs !! "LabelSpecification").
Qed.

Lemma check_positional_cases args (kwargs : gmap string value) :
  ShipmentConfirm.check_positional args kwargs = ret tt
  ∨ (args ≠ [] ∧ ∃ x y, ShipmentConfirm.check_positional args kwargs
                        = raise (AssertionError x y)).
Proof.
  unfold ShipmentConfirm.check_positional. destruct args as [|a args]; [by left|].
  case_decide; [by left|]. right. split; [done|]. eauto.
Qed.

(** [address_type] returns the address unless its test on the elements
    sends it to the logger of the class. *)
Lemma address_type_unfold args kwargs :
  address_type args kwargs
  = (elements ← make_elements ["AddressLine1"; "City"] args kwargs;
     if state_code_abroad elements then raise (AttributeError "warn")
     else ret (E "Address" (Child <$> elements))).
Proof.
  unfold address_type.
  destruct (make_elements_cases ["AddressLine1"; "City"] args kwargs)
    as [(r & _ & _ & ->)|(_ & ->)]; [done|].
  rewrite !bind_ret. unfold state_code_abroad. cbv zeta.
  destruct (dict _ !! "CountryCode") as [country|]; [|done].
  destruct (dict _ !! "StateProviceCode") as [state|]; [|done].
  by destruct (is_US_or_CA country).
Qed.

Ltac builder_cases :=
  match goal with
  | |- context [make_elements ?req ?args ?kw] =>
      destruct (make_elements_cases req args kw)
        as [(r & Hin & Hr & ->)|(Hall & ->)];
      [ right; left; exists r; split; [exact Hin|]; split; [exact Hr|];
        reflexivity
      | rewrite bind_ret, ?E_children ]
  end.

(** How a call of a builder that hands its keywords to [make_elements]
    ends: on the assertion of a label builder, on a missing required
    name, on the logger of [address_type], or with an element whose
    container holds the elements of the call. *)
Lemma call_outcome (b : builder) args kwargs :
  forwards b = true →
  (counts_positional b = true ∧ args ≠ []
   ∧ ∃ x y, outcome (call b args kwargs) = Raise (AssertionError x y))
  ∨ (∃ r, r ∈ required b ∧ provided r args (handed b kwargs) = false
          ∧ outcome (call b args kwargs) = Raise (MissingRequiredField r))
  ∨ (b = b_address_type
     ∧ (∀ r, r ∈ required b → provided r args kwargs = true)
     ∧ state_code_abroad ((keyword_element <$> map_to_list kwargs) ++ args)
       = true
     ∧ call b args kwargs = raise (AttributeError "warn"))
  ∨ ((∀ r, r ∈ required b → provided r args (handed b kwargs) = true)
     ∧ (b = b_address_type →
        state_code_abroad ((keyword_element <$> map_to_list kwargs) ++ args)
        = false)
     ∧ ∃ e c, call b args kwargs = ret e ∧ container b e = Some c
              ∧ children c
                = (keyword_element <$> map_to_list (handed b kwargs)) ++ args).
Proof.
  intros Hf. destruct b; try discriminate; simpl call; simpl handed;
    simpl required; simpl counts_positional.
  all: try (unfold shipper_type, ship_to_type, ship_phone_type, ship_from_type,
      package_type, service_type, packaging_type, package_weight_type,
      package_service_options_type, insured_value_type,
      shipment_service_option_type, payment_information_prepaid_type,
      ShipmentConfirm.label_specification_type;
    builder_cases; right; right; right;
    split; [exact Hall|]; split; [discriminate|];
    eexists _, _; split; [reflexivity|]; split; reflexivity).
  - (* address_type *)
    rewrite address_type_unfold. builder_cases.
    destruct (state_code_abroad _) eqn:Habroad.
    + right; right; left. done.
    + right; right; right. split; [exact Hall|]. split; [done|].
      eexists _, _. split; [reflexivity|]. split; reflexivity.
  - (* label_print_method_type *)
    unfold ShipmentConfirm.label_print_method_type.
    destruct (check_positional_cases args kwargs) as [->|(Hne & x & y & ->)].
    + rewrite bind_ret. builder_cases. right; right; right.
      split; [exact Hall|]. split; [discriminate|].
      eexists _, _; split; [reflexivity|]; split; reflexivity.
    + left. split; [done|]. split; [done|]. by exists x, y.
  - unfold ShipmentConfirm.label_image_format_type.
    destruct (check_positional_cases args kwargs) as [->|(Hne & x & y & ->)].
    + rewrite bind_ret. builder_cases. right; right; right.
      split; [exact Hall|]. split; [discriminate|].
      eexists _, _; split; [reflexivity|]; split; reflexivity.
    + left. split; [done|]. split; [done|]. by exists x, y.
  - (* shipment_confirm_request_type *)
    rewrite confirm_unfold. cbv zeta.
    assert ((match kwargs !! "LabelSpecification" with
         | None => (Child default_label_specification, kwargs)
         | Some v => (item_of v, delete "LabelSpecification" kwargs)
         end).2 = delete "LabelSpecification" kwargs) as ->.
    { destruct (kwargs !! "LabelSpecification") eqn:Hl; [done|].
      simpl. by rewrite delete_id. }
    builder_cases. right; right; right.
    split; [exact Hall|]. split; [discriminate|].
    destruct (kwargs !! "LabelSpecification") as [[s|e']|];
      eexists _, _; (split; [reflexivity|]); split; reflexivity.
Qed.

(** A builder that returns has put the elements of the call under its
    container. *)
Lemma call_children (b : builder) args kwargs (e : Elem) :
  forwards b = true → outcome (call b args kwargs) = Ok e →
  ∃ c, container b e = Some c
       ∧ children c
         = (keyword_element <$> map_to_list (handed b kwargs)) ++ args.
Proof.
  intros Hf Hok.
  destruct (call_outcome b args kwargs Hf)
    as [(_ & _ & x & y & H)|[(r & _ & _ & H)
       |[(_ & _ & _ & H)|(_ & _ & e' & c & H & Hc & Hch)]]];
    rewrite H in Hok; try discriminate.
  injection Hok as ->. by exists c.
Qed.

(** ** The dictionary handed on *)

Lemma handed_lookup_supplied (b : builder) (kwargs : gmap string value) k v :
  kwargs !! k = Some v → k ∉ popped b → handed b kwargs !! k = Some v.
Proof.
  intros Hk Hpop. destruct b; simpl; try done.
  - by apply lookup_union_Some_l.
  - by apply lookup_union_Some_l.
  - rewrite lookup_delete_ne; [done|]. intros <-. apply Hpop. by left.
Qed.

Lemma handed_lookup_omitted (b : builder) (kwargs : gmap string value) k :
  kwargs !! k = None → k ∉ defaults b → handed b kwargs !! k = None.
Proof.
  intros Hk Hdef. destruct b; simpl; try done.
  - apply lookup_union_None. split; [done|].
    apply lookup_singleton_ne. intros <-. apply Hdef. by left.
  - apply lookup_union_None. split; [done|].
    apply lookup_singleton_ne. intros <-. apply Hdef. by left.
  - by apply lookup_delete_None; right.
Qed.




(** ** Calling a builder *)

Lemma named_free (b : builder) (keywords : gmap string value) :
  forallb (λ n, bool_decide (keywords !! n = None)) (named b) = true
  ↔ ∀ n, n ∈ named b → keywords !! n = None.
Proof.
  rewrite forallb_forall. split.
  - intros H n Hn. apply list_elem_of_In in Hn.
    by apply (bool_decide_eq_true_1 _), H.
  - intros H n Hn. apply list_elem_of_In in Hn.
    by apply bool_decide_eq_true_2, H.
Qed.

(** A call runs the body of the builder, or stops on a keyword that
    names a parameter bound already. *)
Lemma invoke_cases (b : builder) args (keywords : gmap string value) :
  ((∀ n, n ∈ named b → keywords !! n = None)
   ∧ invoke b args keywords = call b args keywords)
  ∨ ((∃ n, n ∈ named b ∧ is_Some (keywords !! n))
     ∧ invoke b args keywords
       = raise (TypeError "got multiple values for keyword argument")).
Proof.
  unfold invoke.
  destruct (forallb _ (named b)) eqn:Hfree.
  - left. split; [|done]. by apply named_free.
  - right. split; [|done].
    apply not_true_iff_false in Hfree.
    destruct (decide (Exists (λ n, is_Some (keywords !! n)) (named b)))
      as [Hex|Hnone].
    + apply Exists_exists in Hex as (n & Hn & Hsome). by exists n.
    + exfalso. apply Hfree, named_free. intros n Hn.
      apply eq_None_not_Some. intros Hsome. apply Hnone.
      apply Exists_exists. by exists n.
Qed.

Lemma invoke_returns (b : builder) args (keywords : gmap string value) (e : Elem) :
  outcome (invoke b args keywords) = Ok e →
  (∀ n, n ∈ named b → keywords !! n = None)
  ∧ outcome (call b args keywords) = Ok e.
Proof.
  destruct (invoke_cases b args keywords) as [[Hfree ->]|[_ ->]]; [done|].
  discriminate.
Qed.


(** ** The digest *)

(** The accept request holds the digest it is given, once and as it is. *)
Lemma accept_request_holds_digest (s : string) :
  ∃ document,
    ShipmentAccept.shipment_accept_request_type (objectify.PyStr s)
    = ret document
    ∧ children_tagged "ShipmentDigest" document = [leaf "ShipmentDigest" s].
Proof. eexists. split; reflexivity. Qed.

(** A digest that objectify reads as a string is returned as it is. *)
Lemma extract_digest_text (s : string) (reply : Elem) :
  find_child "ShipmentDigest" reply = Some (leaf "ShipmentDigest" s) →
  objectify.guess s = objectify.PyStr s →
  ShipmentConfirm.extract_digest reply = ret (objectify.PyStr s).
Proof.
  intros Hfind Hguess. unfold ShipmentConfirm.extract_digest, objectify.getattr.
  rewrite Hfind, bind_ret. unfold objectify.pyval. simpl.
  destruct (String.eqb s "") eqn:Hs; [|by rewrite Hguess].
  apply String.eqb_eq in Hs. by subst s.
Qed.

(** A digest that reads as an integer is returned as that integer. *)
Lemma extract_digest_integer (s : string) (z : Z) (reply : Elem) :
  find_child "ShipmentDigest" reply = Some (leaf "ShipmentDigest" s) →
  objectify.check_int s = Some z →
  ShipmentConfirm.extract_digest reply = ret (objectify.PyInt z).
Proof.
  intros Hfind Hint. unfold ShipmentConfirm.extract_digest, objectify.getattr.
  rewrite Hfind, bind_ret. unfold objectify.pyval. simpl.
  destruct (String.eqb s "") eqn:Hs.
  - apply String.eqb_eq in Hs. subst s. vm_compute in Hint. discriminate.
  - unfold objectify.guess. by rewrite Hint.
Qed.

(** The digest of the spec's canned response. *)
Lemma extract_digest_abc123 :
  ShipmentConfirm.extract_digest
    (E "ShipmentConfirmResponse" [Child (leaf "ShipmentDigest" "abc123")])
  = ret (objectify.PyStr "abc123").
Proof. vm_compute. reflexivity. Qed.

(** ** Elements as objects *)

Lemma alter_keeps_parent (f : Objects.node → Objects.node) (i r : nat)
    (h : list Objects.node) :
  (∀ n, Objects.n_parent (f n) = Objects.n_parent n) →
  Objects.getparent (alter f i h) r = Objects.getparent h r.
Proof.
  intros Hf. unfold Objects.getparent.
  destruct (decide (i = r)) as [->|Hne].
  - rewrite list_lookup_alter_eq. destruct (h !! r); simpl; [|done].
    by rewrite Hf.
  - by rewrite list_lookup_alter_ne.
Qed.

Lemma detach_keeps_parent (c r : nat) (h : list Objects.node) :
  Objects.getparent (Objects.detach c h) r = Objects.getparent h r.
Proof.
  unfold Objects.detach. case_match; [|done]. by apply alter_keeps_parent.
Qed.

Lemma detach_length (c : nat) (h : list Objects.node) :
  length (Objects.detach c h) = length h.
Proof. unfold Objects.detach. case_match; [|done]. apply length_alter. Qed.

Lemma append_length (p c : nat) (h : list Objects.node) :
  length (Objects.append p c h).2 = length h.
Proof.
  unfold Objects.append. simpl. by rewrite !length_alter, detach_length.
Qed.

(** Appending gives the child its new parent and changes no other
    parent. *)
Lemma getparent_append (p c r : nat) (h : list Objects.node) :
  c < length h →
  Objects.getparent (Objects.append p c h).2 r
  = if decide (r = c) then Some p else Objects.getparent h r.
Proof.
  intros Hc. unfold Objects.append. simpl.
  rewrite alter_keeps_parent by done.
  case_decide as Hr.
  - subst r. unfold Objects.getparent. rewrite list_lookup_alter_eq.
    destruct (Objects.detach c h !! c) as [n|] eqn:Hn; [done|].
    apply lookup_ge_None in Hn. rewrite detach_length in Hn. lia.
  - unfold Objects.getparent at 1. rewrite list_lookup_alter_ne by done.
    apply detach_keeps_parent.
Qed.

Lemma add_text_keeps_parent (e r : nat) (s : string) (h : list Objects.node) :
  Objects.getparent (Objects.add_text e s h).2 r = Objects.getparent h r.
Proof.
  unfold Objects.add_text. case_match; simpl; by apply alter_keeps_parent.
Qed.

Lemma add_text_length (e : nat) (s : string) (h : list Objects.node) :
  length (Objects.add_text e s h).2 = length h.
Proof. unfold Objects.add_text. case_match; simpl; apply length_alter. Qed.

(** After the items of an element are added, an element that was given
    as an item has that element as its parent, and every other element
    keeps the parent it had. *)
Lemma elem_of_cons_text (r : nat) (s : string) (items : list Objects.item) :
  Objects.Child r ∈ Objects.Text s :: items ↔ Objects.Child r ∈ items.
Proof.
  rewrite elem_of_cons. split; [|by right]. by intros [?|?].
Qed.

Lemma elem_of_cons_child (r c : nat) (items : list Objects.item) :
  Objects.Child r ∈ Objects.Child c :: items
  ↔ r = c ∨ Objects.Child r ∈ items.
Proof.
  rewrite elem_of_cons. split; (intros [Heq|?]; [left|by right]); congruence.
Qed.

Lemma getparent_add_items (e r : nat) (items : list Objects.item)
    (h : list Objects.node) :
  Forall (λ it, match it with
                | Objects.Child c => c < length h
                | Objects.Text _ => True
                end) items →
  Objects.getparent (Objects.add_items e items h).2 r
  = if decide (Objects.Child r ∈ items) then Some e
    else Objects.getparent h r.
Proof.
  revert h. induction items as [|[s|c] items IH]; intros h Hall.
  - case_decide as Hin; [by apply elem_of_nil in Hin|done].
  - apply Forall_cons in Hall as [_ Hall]. cbn [Objects.add_items].
    unfold mbind, Objects.St_bind.
    destruct (Objects.add_text e s h) as [[] h'] eqn:Ht.
    assert (h' = (Objects.add_text e s h).2) as Hh' by by rewrite Ht.
    rewrite IH by (by rewrite Hh', add_text_length).
    rewrite Hh', add_text_keeps_parent.
    apply decide_ext. symmetry. apply elem_of_cons_text.
  - apply Forall_cons in Hall as [Hc Hall]. cbn [Objects.add_items].
    unfold mbind, Objects.St_bind.
    destruct (Objects.append e c h) as [[] h'] eqn:Ht.
    assert (h' = (Objects.append e c h).2) as Hh' by by rewrite Ht.
    rewrite IH by (by rewrite Hh', append_length).
    rewrite Hh', getparent_append by done.
    rewrite (decide_ext _ _ _ _ (elem_of_cons_child r c items)).
    repeat case_decide; try done; tauto.
Qed.

(** Every call of a request builder gives [RequestAction] a new parent:
    the [Request] element made by that call. *)
Lemma request_element_reparents (cls : Objects.templates)
    (h : list Objects.node) :
  Objects.RequestAction cls < length h →
  Objects.RequestOption cls < length h →
  Objects.TransactionReference cls < length h →
  let '(request, h') := Objects.request_element cls h in
  request = length h
  ∧ Objects.getparent h' (Objects.RequestAction cls) = Some request
  ∧ Objects.getparent h' (Objects.RequestOption cls) = Some request
  ∧ Objects.getparent h' (Objects.TransactionReference cls) = Some request.
Proof.
  intros Ha Ho Ht.
  unfold Objects.request_element, Objects.E, Objects.new_element.
  unfold mbind, Objects.St_bind, mret, Objects.St_ret.
  destruct (Objects.add_items _ _ _) as [[] h'] eqn:Hadd.
  assert (h' = (Objects.add_items (length h)
                  [Objects.Child (Objects.RequestAction cls);
                   Objects.Child (Objects.RequestOption cls);
                   Objects.Child (Objects.TransactionReference cls)]
                  (h ++ [Objects.Node "Request" None None [] None])).2)
    as -> by by rewrite Hadd.
  assert (Forall (λ it, match it with
                | Objects.Child c =>
                    c < length (h ++ [Objects.Node "Request" None None [] None])
                | Objects.Text _ => True
                end)
            [Objects.Child (Objects.RequestAction cls);
             Objects.Child (Objects.RequestOption cls);
             Objects.Child (Objects.TransactionReference cls)]) as Hall.
  { rewrite length_app. simpl. repeat constructor; lia. }
  split; [done|].
  rewrite !getparent_add_items by done.
  repeat split; (rewrite decide_True; [done|]);
    rewrite !elem_of_cons_child; tauto.
Qed.


Lemma alter_keeps_tag (f : Objects.node → Objects.node) (i r : nat)
    (h : list Objects.node) :
  (∀ n, Objects.n_tag (f n) = Objects.n_tag n) →
  Objects.n_tag <$> alter f i h !! r = Objects.n_tag <$> h !! r.
Proof.
  intros Hf. destruct (decide (i = r)) as [->|Hne].
  - rewrite list_lookup_alter_eq. destruct (h !! r); simpl; [|done].
    by rewrite Hf.
  - by rewrite list_lookup_alter_ne.
Qed.

Lemma alter_keeps_text (f : Objects.node → Objects.node) (i r : nat)
    (h : list Objects.node) :
  (∀ n, Objects.n_text (f n) = Objects.n_text n) →
  Objects.n_text <$> alter f i h !! r = Objects.n_text <$> h !! r.
Proof.
  intros Hf. destruct (decide (i = r)) as [->|Hne].
  - rewrite list_lookup_alter_eq. destruct (h !! r); simpl; [|done].
    by rewrite Hf.
  - by rewrite list_lookup_alter_ne.
Qed.

(** Appending an element changes no tag and no text: what it changes is
    the parent of the child and the children of its old and new parent. *)
Lemma append_keeps_tag_and_text (parent child r : nat) (h : list Objects.node) :
  Objects.n_tag <$> (Objects.append parent child h).2 !! r
  = Objects.n_tag <$> h !! r
  ∧ Objects.n_text <$> (Objects.append parent child h).2 !! r
    = Objects.n_text <$> h !! r.
Proof.
  unfold Objects.append, Objects.detach. simpl.
  split.
  - rewrite 2!alter_keeps_tag; [|done..].
    case_match; [|done]. by rewrite alter_keeps_tag.
  - rewrite 2!alter_keeps_text; [|done..].
    case_match; [|done]. by rewrite alter_keeps_text.
Qed.

(** In a freshly imported module, the tree of the first accept request
    is the value computed by the builder on values. *)
Lemma first_accept_request_value (digest : string) :
  let '(cls, h0) := Objects.import_module [] in
  let '(doc, h1) :=
    Objects.shipment_accept_request_type (Objects.ShipmentAccept cls)
      digest h0 in
  Ok <$> Objects.snapshot h1 doc
  = Some (outcome (ShipmentAccept.shipment_accept_request_type
                     (objectify.PyStr digest))).
Proof. vm_compute. reflexivity. Qed.

(** The same for the first void request, whatever the tracking numbers:
    here for two of them. *)
Lemma first_void_request_value (shipment t1 t2 : string) :
  let '(cls, h0) := Objects.import_module [] in
  let '(doc, h1) :=
    Objects.void_shipment_request_type (Objects.ShipmentVoid cls)
      shipment [t1; t2] h0 in
  Objects.snapshot h1 doc
  = Some (ShipmentVoid.void_shipment_request_type shipment [t1; t2]).
Proof. vm_compute. reflexivity. Qed.

(** * The claims *)




(** C2 (as amended). For every builder that hands its keywords to
    [make_elements] (all but [dimensions_type]), in the element that
    holds the fields of the call: a field supplied as a keyword with a
    string value is the one child with that tag, and its text is the
    value; a field that is omitted and that the builder does not fill in
    by itself has no child with that tag. Here no positional element
    carries the tag, and the keyword is not [LabelSpecification] of
    [shipment_confirm_request_type], which is taken out of the
    dictionary and handed to [E] as it is. *)
Theorem keyword_field_child (b : builder) args kwargs (k : string) (e : Elem) :
  forwards b = true →
  outcome (invoke b args kwargs) = Ok e →
  tag_free k args = true →
  ∃ c, container b e = Some c
       ∧ (∀ v, kwargs !! k = Some (VStr v) → k ∉ popped b →
               children_tagged k c = [leaf k v])
       ∧ (kwargs !! k = None → k ∉ defaults b → children_tagged k c = []).
Proof.
  intros Hf [_ Hok]%invoke_returns Hfree.
  destruct (call_children b args kwargs e Hf Hok) as (c & Hc & Hch).
  exists c. split; [done|].
  unfold children_tagged.
  rewrite Hch, elements_tagged, tag_free_filter, app_nil_r by done. split.
  - intros v Hk Hpop. by rewrite (handed_lookup_supplied b kwargs k (VStr v)).
  - intros Hk Hdef. by rewrite handed_lookup_omitted.
Qed.

(** The address of the docstring: [AddressLine2='Line2'] is the one
    child tagged [AddressLine2]. *)
Lemma keyword_field_child_witness :
  ∃ address,
    outcome (invoke b_address_type [] address_with_line2) = Ok address
    ∧ children_tagged "AddressLine2" address = [leaf "AddressLine2" "Line2"].
Proof.
  eexists. split; [vm_compute; reflexivity|].
  match goal with
  | |- children_tagged _ ?address = _ =>
      destruct (keyword_field_child b_address_type [] address_with_line2
                  "AddressLine2" address)
        as (c & Hc & Hsupplied & _)
  end.
  - reflexivity.
  - vm_compute. reflexivity.
  - vm_compute. reflexivity.
  - injection Hc as <-. apply Hsupplied.
    + vm_compute. reflexivity.
    + simpl. apply not_elem_of_nil.
Defined.

(** C2 as stated fails: [LabelSpecification] is an optional field of
    [shipment_confirm_request_type]; when it is omitted the returned
    tree still has a child with that tag. *)
Lemma omitted_label_specification_is_present :
  sample_shipment !! "LabelSpecification" = None
  ∧ ∃ document,
      outcome (ShipmentConfirm.shipment_confirm_request_type [] sample_shipment)
      = Ok document
      ∧ children_tagged "LabelSpecification" document
        = [default_label_specification].
Proof.
  split; [vm_compute; reflexivity|]. eexists. split; vm_compute; reflexivity.
Qed.

(** C3. A confirm response whose digest reads as a number: the digest
    "123" comes back from [extract_digest] as the integer 123, not as the
    text held by the element, and the accept request cannot be built
    from it. *)
Theorem numeric_digest_is_not_returned_as_text :
  let reply :=
    E "ShipmentConfirmResponse" [Child (leaf "ShipmentDigest" "123")] in
  outcome (ShipmentConfirm.extract_digest reply) = Ok (objectify.PyInt 123)
  ∧ outcome (digest ← ShipmentConfirm.extract_digest reply;
             ShipmentAccept.shipment_accept_request_type digest)
    = Raise (TypeError "bad argument type").
Proof. split; vm_compute; reflexivity. Qed.

(** C4. Whatever the client, when the transport's answer parses into a
    tree that holds a carrier error node, [request] raises CarrierError
    with the text that was sent and the parsed response. *)
Theorem carrier_error_raised (a : api) (env : Env) (self : client)
    (document : Elem) (body : string) (reply : Elem) :
  send_request env (url_of a env self) (two_documents env self document)
  = Ok body →
  fromstring env body = Ok reply →
  any_node (error_node env) reply = true →
  outcome (request_of a env self document)
  = Raise (CarrierError (two_documents env self document) reply).
Proof.
  intros Hsend Hparse Herror.
  destruct a; simpl in *;
    unfold ShipmentConfirm.request, ShipmentAccept.request,
      ShipmentVoid.request, post, look_for_error, two_documents in *;
    simpl String.concat; rewrite Hsend; simpl; rewrite Hparse; simpl;
    rewrite Herror; reflexivity.
Qed.

Lemma carrier_error_raised_witness :
  outcome (ShipmentConfirm.request failing_carrier sample_client
             (E "ShipmentConfirmRequest" []))
  = Raise (CarrierError
             (two_documents failing_carrier sample_client
                (E "ShipmentConfirmRequest" []))
             (E "Response" [Child (E "Error" [])])).
Proof.
  apply (carrier_error_raised ShipConfirm failing_carrier sample_client
           (E "ShipmentConfirmRequest" []) "<Error/>"
           (E "Response" [Child (E "Error" [])])).
  - reflexivity.
  - reflexivity.
  - vm_compute. reflexivity.
Defined.

(** C5. The address of the spec, with the state code X and the country
    DE: [address_type] goes on to warn, and the logger it asks for is
    [cls.logger], read from the class, which is no logger. The call
    raises AttributeError: no [Address] is returned and nothing is
    logged. With the country US the address is returned, and nothing is
    logged. *)
Theorem state_code_abroad_is_not_warned :
  address_type [] (address_in "DE") = raise (AttributeError "warn")
  ∧ ∃ address,
      address_type [] (address_in "US") = ret address
      ∧ tag address = "Address".
Proof.
  split; [vm_compute; reflexivity|].
  eexists. split; vm_compute; reflexivity.
Qed.

(** C7. Whatever the client, the document and the answer of the
    transport, [request] posts exactly once, and the body is the access
    request and the business document, in this order, each after its own
    XML declaration. *)
Theorem request_posts_two_documents (a : api) (env : Env) (self : client)
    (document : Elem) :
  posted (events (request_of a env self document))
  = [(url_of a env self, two_documents env self document)].
Proof.
  destruct a; simpl;
    unfold ShipmentConfirm.request, ShipmentAccept.request,
      ShipmentVoid.request, post, look_for_error, two_documents;
    simpl String.concat;
    destruct (send_request env _ _) as [body|e]; simpl; try reflexivity;
    destruct (fromstring env body) as [reply|e]; simpl; try reflexivity;
    destruct (any_node (error_node env) reply); simpl; try reflexivity;
    destruct (return_xml self); reflexivity.
Qed.

(** C8. Two accept requests built one after the other in a freshly
    imported module. The first call gives the class attribute
    [RequestAction] a parent; the second call moves the three class
    attributes into its own [Request], so the document returned by the
    first call, complete when it was returned, is left with an empty
    [Request]. *)
Theorem second_request_empties_the_first (d1 d2 : string) :
  let '(cls, h0) := Objects.import_module [] in
  let accept :=
    Objects.shipment_accept_request_type (Objects.ShipmentAccept cls) in
  let action := Objects.RequestAction (Objects.ShipmentAccept cls) in
  let '(doc1, h1) := accept d1 h0 in
  let '(doc2, h2) := accept d2 h1 in
  let complete d :=
    Element "ShipmentAcceptRequest" None None
      [Element "Request" None None
         [ShipmentAccept.RequestAction; ShipmentAccept.RequestOption;
          ShipmentAccept.TransactionReference];
       leaf "ShipmentDigest" d] in
  Objects.getparent h0 action = None
  ∧ Objects.getparent h1 action = Some 12
  ∧ Objects.getparent h2 action = Some 15
  ∧ Objects.snapshot h1 doc1 = Some (complete d1)
  ∧ Objects.snapshot h2 doc2 = Some (complete d2)
  ∧ Objects.snapshot h2 doc1
    = Some (Element "ShipmentAcceptRequest" None None
              [Element "Request" None None []; leaf "ShipmentDigest" d1]).
Proof. vm_compute. repeat split. Qed.




(** C10. When no [LabelSpecification] keyword is given, the document
    that [shipment_confirm_request_type] returns has the children
    [Request], [Shipment], [LabelSpecification] in this order, and its
    label specification is the one for GIF: [LabelPrintMethod/Code] and
    [LabelImageFormat/Code] are both GIF. *)
Theorem guessed_label_specification_is_GIF args kwargs (document : Elem) :
  kwargs !! "LabelSpecification" = None →
  outcome (ShipmentConfirm.shipment_confirm_request_type args kwargs)
  = Ok document →
  tag <$> children document = ["Request"; "Shipment"; "LabelSpecification"]
  ∧ find_child "LabelSpecification" document = Some default_label_specification
  ∧ text_at ["LabelSpecification"; "LabelPrintMethod"; "Code"] document
    = Some "GIF"
  ∧ text_at ["LabelSpecification"; "LabelImageFormat"; "Code"] document
    = Some "GIF".
Proof.
  intros Hnone. rewrite confirm_unfold, Hnone. cbv zeta. simpl fst. simpl snd.
  destruct (make_elements_cases
              ["Shipper"; "ShipTo"; "ShipFrom"; "Service"; "PaymentInformation"]
              args kwargs) as [(r & _ & _ & ->)|(_ & ->)]; [discriminate|].
  rewrite bind_ret, E_children. intros [= <-]. repeat split.
Qed.

(** The sample shipment, built without a label specification. *)
Lemma guessed_label_specification_is_GIF_witness :
  ∃ document,
    outcome (ShipmentConfirm.shipment_confirm_request_type [] sample_shipment)
    = Ok document
    ∧ tag <$> children document = ["Request"; "Shipment"; "LabelSpecification"]
    ∧ find_child "LabelSpecification" document
      = Some default_label_specification
    ∧ text_at ["LabelSpecification"; "LabelPrintMethod"; "Code"] document
      = Some "GIF"
    ∧ text_at ["LabelSpecification"; "LabelImageFormat"; "Code"] document
      = Some "GIF".
Proof.
  eexists. split; [vm_compute; reflexivity|].
  apply (guessed_label_specification_is_GIF [] sample_shipment);
    vm_compute; reflexivity.
Defined.

(** * Further properties of the code *)

(** ** The clients *)

(** X1. When the transport's answer parses into a tree without a
    carrier error node, [request] returns: the parsed response alone, or,
    when [return_xml] is set, together with the very text that was
    posted. It logs the request, posts once, and logs the answer. *)
Theorem request_returns_response (a : api) (env : Env) (self : client)
    (document : Elem) (body : string) (reply : Elem) :
  send_request env (url_of a env self) (two_documents env self document)
  = Ok body →
  fromstring env body = Ok reply →
  any_node (error_node env) reply = false →
  request_of a env self document
  = ([LogDebug ("Request XML: " +:+ two_documents env self document);
      Posted (url_of a env self) (two_documents env self document);
      LogDebug ("Response Received: " +:+ body)],
     Ok (if return_xml self
         then WithRequest (two_documents env self document) reply
         else Parsed reply)).
Proof.
  intros Hsend Hparse Hclean.
  destruct a; simpl in *;
    unfold ShipmentConfirm.request, ShipmentAccept.request,
      ShipmentVoid.request, post, look_for_error, two_documents in *;
    simpl String.concat; rewrite Hsend; simpl; rewrite Hparse; simpl;
    rewrite Hclean; simpl; by destruct (return_xml self).
Qed.

Lemma request_returns_response_witness :
  outcome (ShipmentAccept.request answering_carrier sample_client
             (E "ShipmentAcceptRequest" []))
  = Ok (Parsed (E "ShipmentConfirmResponse"
                  [Child (leaf "ShipmentDigest" "abc123")])).
Proof.
  change (ShipmentAccept.request answering_carrier sample_client)
    with (request_of ShipAccept answering_carrier sample_client).
  rewrite (request_returns_response ShipAccept answering_carrier sample_client
             (E "ShipmentAcceptRequest" []) "<ShipmentConfirmResponse/>"
             (E "ShipmentConfirmResponse"
                [Child (leaf "ShipmentDigest" "abc123")])).
  - reflexivity.
  - reflexivity.
  - reflexivity.
  - vm_compute. reflexivity.
Defined.

(** X2. A failure of the transport, or of the parser on the transport's
    answer, is raised by [request] as it is: nothing is retried or
    swallowed, and the request has been posted exactly once. *)
Theorem request_surfaces_failures (a : api) (env : Env) (self : client)
    (document : Elem) (e : exn) :
  send_request env (url_of a env self) (two_documents env self document)
  = Raise e
  ∨ (∃ body,
       send_request env (url_of a env self) (two_documents env self document)
       = Ok body
       ∧ fromstring env body = Raise e) →
  outcome (request_of a env self document) = Raise e
  ∧ posted (events (request_of a env self document))
    = [(url_of a env self, two_documents env self document)].
Proof.
  intros [Hsend|(body & Hsend & Hparse)];
    destruct a; simpl in *;
    unfold ShipmentConfirm.request, ShipmentAccept.request,
      ShipmentVoid.request, post, look_for_error, two_documents in *;
    simpl String.concat; rewrite Hsend; simpl; try done;
    rewrite Hparse; done.
Qed.

Lemma request_surfaces_failures_witness :
  outcome (ShipmentVoid.request unreachable_carrier sample_client
             (E "VoidShipmentRequest" []))
  = Raise (TransportFailure "connection refused")
  ∧ posted (events (ShipmentVoid.request unreachable_carrier sample_client
                      (E "VoidShipmentRequest" [])))
    = [("https://example.invalid/sandbox/Void",
        two_documents unreachable_carrier sample_client
          (E "VoidShipmentRequest" []))].
Proof.
  apply (request_surfaces_failures Void unreachable_carrier sample_client
           (E "VoidShipmentRequest" []) (TransportFailure "connection refused")).
  left. reflexivity.
Defined.

(** ** The request documents *)

Lemma filter_all {A} (P : A → Prop) `{∀ x, Decision (P x)} (l : list A) :
  Forall P l → filter P l = l.
Proof.
  induction 1 as [|x l Hx _ IH]; [done|].
  by rewrite filter_cons_True, IH.
Qed.

(** X3. A void request lists, under [ExpandedVoidShipment], the
    shipment identification number first and then one [TrackingNumber]
    per tracking id, in the order given and with repetitions kept; with
    no tracking id the identification number stands alone. *)
Theorem void_request_layout (shipment_id : string) (tracking_ids : list string) :
  ∃ expanded,
    children (ShipmentVoid.void_shipment_request_type shipment_id tracking_ids)
    = [request_header "Void" ""; expanded]
    ∧ tag expanded = "ExpandedVoidShipment"
    ∧ head (children expanded)
      = Some (leaf "ShipmentIdentificationNumber" shipment_id)
    ∧ children_tagged "ShipmentIdentificationNumber" expanded
      = [leaf "ShipmentIdentificationNumber" shipment_id]
    ∧ children_tagged "TrackingNumber" expanded
      = leaf "TrackingNumber" <$> tracking_ids
    ∧ length (children expanded) = S (length tracking_ids).
Proof.
  unfold ShipmentVoid.void_shipment_request_type.
  rewrite (E_children "ExpandedVoidShipment").
  eexists. split; [reflexivity|]. split; [reflexivity|].
  split; [reflexivity|]. unfold children_tagged. simpl children.
  split; [|split].
  - rewrite filter_cons_True by done. f_equal.
    apply filter_none, Forall_fmap, Forall_true. done.
  - rewrite filter_cons_False by done.
    apply filter_all, Forall_fmap, Forall_true. done.
  - simpl. by rewrite length_fmap.
Qed.



(** ** [dimensions_type] *)




(** ** When a builder returns *)




(** X8. [package_weight_type] takes exactly one [Weight]. Called with
    keywords only, it returns when [Weight] is among them (and [cls] is
    not) and raises TypeError otherwise; called with the weight as the
    first positional argument, it returns when neither [Weight] nor
    [cls] is a keyword and raises TypeError otherwise. When it returns,
    [PackageWeight] holds [UnitOfMeasurement] and then [Weight] with the
    value given; the unit holds one element per keyword other than
    [Weight] and the further positional elements, and is checked for
    nothing, although the docstring marks [Code] as required. *)
Theorem package_weight_type_takes_one_weight (keywords : gmap string value) :
  (∀ Weight args,
     match keywords !! "Weight", keywords !! "cls" with
     | None, None =>
         ∃ unit,
           invoke (b_package_weight_type Weight) args keywords
           = ret (Element "PackageWeight" None None
                    [unit; E "Weight" [item_of Weight]])
           ∧ tag unit = "UnitOfMeasurement"
           ∧ length (children unit) = size keywords + length args
     | _, _ =>
         invoke (b_package_weight_type Weight) args keywords
         = raise (TypeError "got multiple values for keyword argument")
     end)
  ∧ match keywords !! "Weight", keywords !! "cls" with
    | Some Weight, None =>
        ∃ unit,
          package_weight_type_by_keywords keywords
          = ret (Element "PackageWeight" None None
                   [unit; E "Weight" [item_of Weight]])
          ∧ tag unit = "UnitOfMeasurement"
          ∧ children_tagged "Weight" unit = []
          ∧ S (length (children unit)) = size keywords
    | _, _ =>
        ∃ what, package_weight_type_by_keywords keywords
                = raise (TypeError what)
    end.
Proof.
  assert (∀ Weight args (kw : gmap string value),
            kw !! "Weight" = None → kw !! "cls" = None →
            invoke (b_package_weight_type Weight) args kw
            = ret (Element "PackageWeight" None None
                     [Element "UnitOfMeasurement" None None
                        ((keyword_element <$> map_to_list kw) ++ args);
                      E "Weight" [item_of Weight]])) as Hreturn.
  { intros Weight args kw Hw Hc. unfold invoke. simpl named. simpl forallb.
    rewrite !bool_decide_eq_true_2 by done. simpl call.
    unfold package_weight_type. rewrite make_elements_provided.
    - by rewrite bind_ret, E_children.
    - intros r Hr. by apply elem_of_nil in Hr. }
  split.
  - intros Weight args.
    destruct (keywords !! "Weight") as [w|] eqn:Hw.
    + unfold invoke. simpl named. simpl forallb.
      rewrite (bool_decide_eq_false_2 (keywords !! "Weight" = None))
        by by rewrite Hw.
      by rewrite andb_false_r.
    + destruct (keywords !! "cls") as [c|] eqn:Hc.
      * unfold invoke. simpl named. simpl forallb.
        rewrite (bool_decide_eq_false_2 (keywords !! "cls" = None))
          by by rewrite Hc.
        done.
      * eexists. split; [by apply Hreturn|]. split; [done|].
        simpl. by rewrite length_app, length_fmap, length_map_to_list.
  - unfold package_weight_type_by_keywords.
    destruct (keywords !! "Weight") as [w|] eqn:Hw.
    + destruct (keywords !! "cls") as [c|] eqn:Hc.
      * exists "got multiple values for keyword argument".
        unfold invoke. simpl named. simpl forallb.
        rewrite (bool_decide_eq_false_2 (delete "Weight" keywords !! "cls" = None)).
        -- done.
        -- rewrite lookup_delete_ne by done. by rewrite Hc.
      * eexists. split.
        { apply Hreturn; [apply lookup_delete_eq|].
          by rewrite lookup_delete_ne. }
        split; [done|]. split.
        -- unfold children_tagged. simpl children.
           rewrite elements_tagged, lookup_delete_eq. done.
        -- simpl. rewrite app_nil_r, length_fmap, length_map_to_list.
           rewrite map_size_delete, Hw.
           assert (size keywords ≠ 0); [|lia].
           intros Hzero%map_size_empty_inv. subst keywords. done.
    + destruct (keywords !! "cls"); case_bool_decide; eauto.
Qed.

Lemma bind_ok_inv {A B} (m : M A) (f : A → M B) (b : B) :
  outcome (m ≫= f) = Ok b → ∃ a, outcome m = Ok a ∧ outcome (f a) = Ok b.
Proof.
  destruct m as [log [a|e]]; unfold mbind, M_bind, bind, outcome; simpl.
  - destruct (f a) as [log' r] eqn:Hf. simpl. intros ->.
    exists a. by rewrite Hf.
  - discriminate.
Qed.

Ltac returned H :=
  repeat (apply bind_ok_inv in H as (? & _ & H); cbv beta zeta in H);
  injection H as <-; apply E_tag.

(** X9. Every builder returns an element that carries the builder's own
    tag, whatever the arguments: the element can be given to the next
    builder under that name. *)
Theorem builder_root_tag (b : builder) args kwargs (e : Elem) :
  outcome (call b args kwargs) = Ok e → tag e = root_tag b.
Proof.
  intros H. destruct b; simpl call in H; simpl root_tag.
  all: try (unfold shipper_type, ship_to_type, address_type, ship_phone_type,
      ship_from_type, package_type, service_type, packaging_type,
      package_weight_type, dimensions_type, package_service_options_type,
      insured_value_type, shipment_service_option_type,
      payment_information_prepaid_type,
      ShipmentConfirm.label_print_method_type,
      ShipmentConfirm.label_image_format_type,
      ShipmentConfirm.label_specification_type in H;
    returned H).
  rewrite confirm_unfold in H. cbv zeta in H. returned H.
Qed.

Lemma builder_root_tag_witness :
  tag (Element "Address" None None
         [leaf "City" "City"; leaf "AddressLine1" "Line1";
          leaf "AddressLine2" "Line2"])
  = "Address".
Proof.
  apply (builder_root_tag b_address_type [] address_with_line2).
  vm_compute. reflexivity.
Defined.

(** ** The label builders *)




(** X11. Called without a [Code] keyword, a label builder puts exactly
    one [Code] in its element, with the text GIF (no positional element
    being a [Code] itself). *)
Theorem label_code_defaults_to_GIF (b : builder) args kwargs (e : Elem) :
  counts_positional b = true →
  kwargs !! "Code" = None →
  tag_free "Code" args = true →
  outcome (call b args kwargs) = Ok e →
  children_tagged "Code" e = [leaf "Code" "GIF"].
Proof.
  intros Hcount Hnone Hfree Hok.
  assert (forwards b = true) as Hf by by destruct b.
  destruct (call_children b args kwargs e Hf Hok) as (c & Hc & Hch).
  assert (c = e) as -> by (destruct b; try discriminate; by injection Hc).
  unfold children_tagged.
  rewrite Hch, elements_tagged, tag_free_filter, app_nil_r by done.
  assert (handed b kwargs !! "Code" = Some (VStr "GIF")) as ->; [|done].
  destruct b; try discriminate; simpl;
    (rewrite lookup_union_r by done; by rewrite lookup_singleton_eq).
Qed.

Lemma label_code_defaults_to_GIF_witness :
  children_tagged "Code" (Element "LabelImageFormat" None None [leaf "Code" "GIF"])
  = [leaf "Code" "GIF"].
Proof.
  apply (label_code_defaults_to_GIF b_label_image_format_type [] ∅);
    vm_compute; reflexivity.
Defined.

(** ** Elements given as keywords *)



(** ** [shipment_confirm_request_type] *)



(** ** [address_type] *)

(** X14. [address_type] stays silent when the address has no
    [StateProviceCode], or no [CountryCode], whatever the other fields
    are and whether or not the call succeeds; and then it does not ask
    for the logger: the call is the check of the required names and the
    making of the element. *)
Theorem address_without_state_or_country_is_silent args kwargs (k : string) :
  k = "StateProviceCode" ∨ k = "CountryCode" →
  kwargs !! k = None → tag_free k args = true →
  events (address_type args kwargs) = []
  ∧ address_type args kwargs
    = (elements ← make_elements ["AddressLine1"; "City"] args kwargs;
       ret (E "Address" (Child <$> elements))).
Proof.
  intros Hk Hnone Hfree.
  assert (address_type args kwargs
          = (elements ← make_elements ["AddressLine1"; "City"] args kwargs;
             ret (E "Address" (Child <$> elements)))) as ->.
  { rewrite address_type_unfold.
    destruct (make_elements_cases ["AddressLine1"; "City"] args kwargs)
      as [(r & _ & _ & ->)|(_ & ->)]; [done|].
    rewrite !bind_ret. unfold state_code_abroad. cbv zeta.
    destruct Hk as [-> | ->].
    - rewrite (data_lookup_keyword "StateProviceCode"), Hnone by done.
      simpl. by destruct (dict _ !! "CountryCode").
    - by rewrite (data_lookup_keyword "CountryCode"), Hnone. }
  split; [|done].
  by destruct (make_elements_cases ["AddressLine1"; "City"] args kwargs)
    as [(r & _ & _ & ->)|(_ & ->)].
Qed.

Lemma address_without_state_or_country_is_silent_witness :
  events (address_type [] address_with_line2) = [].
Proof.
  apply (address_without_state_or_country_is_silent [] address_with_line2
           "CountryCode").
  - by right.
  - vm_compute. reflexivity.
  - vm_compute. reflexivity.
Defined.

(** X20. An address whose required fields are provided, with no
    positional element tagged [CountryCode] or [StateProviceCode] and
    no keyword [cls]: [address_type] returns the [Address] unless both
    are given as keywords and the country is not the string US or CA;
    in that case it raises AttributeError, for the [warn] it looks for
    on [cls.logger], and logs nothing. *)
Theorem address_type_outcome args kwargs :
  kwargs !! "cls" = None →
  provided "AddressLine1" args kwargs = true →
  provided "City" args kwargs = true →
  tag_free "CountryCode" args = true →
  tag_free "StateProviceCode" args = true →
  match kwargs !! "CountryCode", kwargs !! "StateProviceCode" with
  | Some country, Some _ =>
      if is_US_or_CA (keyword_text country)
      then ∃ address,
             invoke b_address_type args kwargs = ret address
             ∧ tag address = "Address"
      else invoke b_address_type args kwargs = raise (AttributeError "warn")
  | _, _ =>
      ∃ address,
        invoke b_address_type args kwargs = ret address
        ∧ tag address = "Address"
  end.
Proof.
  intros Hcls Hline Hcity Hfree_c Hfree_s.
  destruct (invoke_cases b_address_type args kwargs)
    as [[_ ->]|[(n & Hn & Hsome) _]].
  2:{ apply list_elem_of_singleton in Hn as ->. rewrite Hcls in Hsome.
      by destruct Hsome. }
  simpl call.
  rewrite address_type_unfold, make_elements_provided.
  2:{ intros r Hr. apply elem_of_cons in Hr as [->|Hr]; [done|].
      apply list_elem_of_singleton in Hr as ->. done. }
  rewrite bind_ret. unfold state_code_abroad. cbv zeta.
  rewrite !data_lookup_keyword by done.
  destruct (kwargs !! "CountryCode") as [country|];
    [|eexists; split; [reflexivity|apply E_tag]].
  destruct (kwargs !! "StateProviceCode") as [state|];
    [|eexists; split; [reflexivity|apply E_tag]].
  simpl. destruct (is_US_or_CA (keyword_text country)); [|done].
  eexists. split; [reflexivity|apply E_tag].
Qed.

Lemma address_type_outcome_witness :
  invoke b_address_type [] (address_in "DE") = raise (AttributeError "warn").
Proof.
  exact (address_type_outcome [] (address_in "DE")
           eq_refl eq_refl eq_refl eq_refl eq_refl).
Defined.

(** ** Builders composed *)

(** X15. The elements returned by [shipper_type], [ship_to_type],
    [ship_from_type], [service_type] and [payment_information_type]
    (each carries the tag of its builder) make a confirm request when
    they are given as positional arguments: the call returns, logs
    nothing, and the [Shipment] of the document holds exactly these five
    elements, each as the one child with its tag; the label
    specification is the one for GIF. Given under the keywords of the
    docstring instead, each of the five is found inside a second
    element of its name. *)
Theorem shipment_is_composed (shipper ship_to ship_from service payment : Elem) :
  tag shipper = "Shipper" → tag ship_to = "ShipTo" →
  tag ship_from = "ShipFrom" → tag service = "Service" →
  tag payment = "PaymentInformation" →
  (∃ shipment,
     ShipmentConfirm.shipment_confirm_request_type
       [shipper; ship_to; ship_from; service; payment] ∅
     = ret (Element "ShipmentConfirmRequest" None None
              [request_header "ShipConfirm" "nonvalidate"; shipment;
               default_label_specification])
     ∧ tag shipment = "Shipment"
     ∧ length (children shipment) = 5
     ∧ children_tagged "Shipper" shipment = [shipper]
     ∧ children_tagged "ShipTo" shipment = [ship_to]
     ∧ children_tagged "ShipFrom" shipment = [ship_from]
     ∧ children_tagged "Service" shipment = [service]
     ∧ children_tagged "PaymentInformation" shipment = [payment])
  ∧ (∃ shipment,
       ShipmentConfirm.shipment_confirm_request_type []
         (shipment_of shipper ship_to ship_from service payment)
       = ret (Element "ShipmentConfirmRequest" None None
                [request_header "ShipConfirm" "nonvalidate"; shipment;
                 default_label_specification])
       ∧ tag shipment = "Shipment"
       ∧ length (children shipment) = 5
       ∧ children_tagged "Shipper" shipment
         = [Element "Shipper" None None [shipper]]
       ∧ children_tagged "ShipTo" shipment
         = [Element "ShipTo" None None [ship_to]]
       ∧ children_tagged "ShipFrom" shipment
         = [Element "ShipFrom" None None [ship_from]]
       ∧ children_tagged "Service" shipment
         = [Element "Service" None None [service]]
       ∧ children_tagged "PaymentInformation" shipment
         = [Element "PaymentInformation" None None [payment]]).
Proof.
  destruct shipper as [t1 x1 l1 c1], ship_to as [t2 x2 l2 c2],
    ship_from as [t3 x3 l3 c3], service as [t4 x4 l4 c4],
    payment as [t5 x5 l5 c5]. simpl.
  intros -> -> -> -> ->. split.
  - eexists. split; [vm_compute; reflexivity|]. repeat split.
  - eexists. split; [vm_compute; reflexivity|]. repeat split.
Qed.

Lemma shipment_is_composed_witness :
  ∃ shipment,
    ShipmentConfirm.shipment_confirm_request_type positional_shipment ∅
    = ret (Element "ShipmentConfirmRequest" None None
             [request_header "ShipConfirm" "nonvalidate"; shipment;
              default_label_specification])
    ∧ tag shipment = "Shipment"
    ∧ length (children shipment) = 5
    ∧ children_tagged "Shipper" shipment = [E "Shipper" []]
    ∧ children_tagged "ShipTo" shipment = [E "ShipTo" []]
    ∧ children_tagged "ShipFrom" shipment = [E "ShipFrom" []]
    ∧ children_tagged "Service" shipment
      = [E "Service" [Child (leaf "Code" "03")]]
    ∧ children_tagged "PaymentInformation" shipment
      = [ShipmentConfirm.payment_information_type (E "Prepaid" [])].
Proof.
  apply (shipment_is_composed (E "Shipper" []) (E "ShipTo" []) (E "ShipFrom" [])
           (E "Service" [Child (leaf "Code" "03")])
           (ShipmentConfirm.payment_information_type (E "Prepaid" [])));
    reflexivity.
Defined.

(** ** What building a request leaves alone *)

Lemma alter_keeps_content (f : Objects.node → Objects.node) (i r : nat)
    (h : list Objects.node) :
  i ≠ r ∨ (∀ n, Objects.n_tag (f n) = Objects.n_tag n
                ∧ Objects.n_text (f n) = Objects.n_text n) →
  content (alter f i h) r = content h r.
Proof.
  intros Hf. unfold content. destruct (decide (i = r)) as [->|Hne].
  - destruct Hf as [?|Hf]; [done|].
    rewrite list_lookup_alter_eq. destruct (h !! r) as [n|]; simpl; [|done].
    by destruct (Hf n) as [-> ->].
  - by rewrite list_lookup_alter_ne.
Qed.

Lemma append_keeps_content (p c r : nat) (h : list Objects.node) :
  content (Objects.append p c h).2 r = content h r.
Proof.
  unfold Objects.append, Objects.detach. simpl.
  rewrite !alter_keeps_content by (by right).
  case_match; [|done]. apply alter_keeps_content. by right.
Qed.

Lemma add_text_keeps_content (e r : nat) (s : string) (h : list Objects.node) :
  e ≠ r → content (Objects.add_text e s h).2 r = content h r.
Proof.
  intros Hne. unfold Objects.add_text. case_match; simpl;
    apply alter_keeps_content; [by right|by left].
Qed.

Lemma add_items_frame (e r : nat) (items : list Objects.item)
    (h : list Objects.node) :
  e ≠ r →
  content (Objects.add_items e items h).2 r = content h r
  ∧ length (Objects.add_items e items h).2 = length h.
Proof.
  intros Hne. revert h.
  induction items as [|[s|c] items IH]; intros h; [done|..];
    cbn [Objects.add_items]; unfold mbind, Objects.St_bind.
  - destruct (Objects.add_text e s h) as [[] h'] eqn:Ht.
    assert (h' = (Objects.add_text e s h).2) as Hh' by by rewrite Ht.
    destruct (IH h') as [-> ->].
    by rewrite Hh', add_text_keeps_content, add_text_length.
  - destruct (Objects.append e c h) as [[] h'] eqn:Ht.
    assert (h' = (Objects.append e c h).2) as Hh' by by rewrite Ht.
    destruct (IH h') as [-> ->].
    by rewrite Hh', append_keeps_content, append_length.
Qed.

(** [E] makes one new element, at the end of the heap, and changes the
    tag and the text of no element that was there. *)
Lemma E_frame (t : string) (items : list Objects.item) (h : list Objects.node)
    (r : nat) :
  r < length h →
  (Objects.E t items h).1 = length h
  ∧ length (Objects.E t items h).2 = S (length h)
  ∧ content (Objects.E t items h).2 r = content h r.
Proof.
  intros Hr. unfold Objects.E, Objects.new_element.
  unfold mbind, Objects.St_bind, mret, Objects.St_ret.
  destruct (Objects.add_items _ _ _) as [[] h'] eqn:Hadd. simpl.
  assert (h' = (Objects.add_items (length h) items
                  (h ++ [Objects.Node t None None [] None])).2)
    as -> by by rewrite Hadd.
  destruct (add_items_frame (length h) r items
              (h ++ [Objects.Node t None None [] None])) as [-> ->]; [lia|].
  split; [done|]. split.
  - rewrite length_app. simpl. lia.
  - unfold content. by rewrite lookup_app_l.
Qed.

Lemma tracking_numbers_frame (tracking_ids : list string)
    (h : list Objects.node) (r : nat) :
  r < length h →
  (length h ≤ length (Objects.tracking_numbers tracking_ids h).2)%nat
  ∧ content (Objects.tracking_numbers tracking_ids h).2 r = content h r.
Proof.
  revert h. induction tracking_ids as [|packet rest IH]; intros h Hr; [done|].
  cbn [Objects.tracking_numbers].
  unfold mbind, Objects.St_bind, mret, Objects.St_ret.
  destruct (Objects.E "TrackingNumber" [Objects.Text packet] h)
    as [number h1] eqn:HE.
  destruct (E_frame "TrackingNumber" [Objects.Text packet] h r Hr)
    as (_ & Hlen & Hcontent).
  rewrite HE in Hlen, Hcontent. simpl in Hlen, Hcontent.
  destruct (Objects.tracking_numbers rest h1) as [numbers h2] eqn:Hrest.
  destruct (IH h1) as [Hle Hc]; [lia|].
  rewrite Hrest in Hle, Hc. simpl in *. split; [lia|congruence].
Qed.

Ltac step_E HE r :=
  match type of HE with
  | Objects.E ?t ?items ?h = (?x, ?h') =>
      let Hlen := fresh "Hlen" in
      let Hcontent := fresh "Hcontent" in
      destruct (E_frame t items h r) as (_ & Hlen & Hcontent); [lia|];
      rewrite HE in Hlen, Hcontent; simpl in Hlen, Hcontent
  end.

(** X16. Building an accept request or a void request changes the tag
    and the text of no element that exists already, the class attributes
    included, in whatever state the elements are: what a builder changes
    of an existing element is where it hangs, not what it says. *)
Theorem request_builders_keep_tags_and_texts (cls : Objects.templates)
    (h : list Objects.node) (r : nat) :
  r < length h →
  (∀ digest,
     content (Objects.shipment_accept_request_type cls digest h).2 r
     = content h r)
  ∧ (∀ shipment_id tracking_ids,
       content (Objects.void_shipment_request_type cls shipment_id
                  tracking_ids h).2 r
       = content h r).
Proof.
  intros Hr. split.
  - intros digest.
    unfold Objects.shipment_accept_request_type, Objects.request_element.
    unfold mbind, Objects.St_bind.
    destruct (Objects.E "Request" _ h) as [request h1] eqn:H1.
    step_E H1 r.
    destruct (Objects.E "ShipmentDigest" _ h1) as [digest_element h2] eqn:H2.
    step_E H2 r.
    destruct (Objects.E "ShipmentAcceptRequest" _ h2) as [document h3] eqn:H3.
    step_E H3 r. simpl. congruence.
  - intros shipment_id tracking_ids.
    unfold Objects.void_shipment_request_type, Objects.request_element.
    unfold mbind, Objects.St_bind.
    destruct (Objects.E "Request" _ h) as [request h1] eqn:H1.
    step_E H1 r.
    destruct (Objects.tracking_numbers tracking_ids h1) as [numbers h2] eqn:H2.
    destruct (tracking_numbers_frame tracking_ids h1 r) as [Hle Hc]; [lia|].
    rewrite H2 in Hle, Hc. simpl in Hle, Hc.
    destruct (Objects.E "ShipmentIdentificationNumber" _ h2)
      as [identification h3] eqn:H3.
    step_E H3 r.
    destruct (Objects.E "ExpandedVoidShipment" _ h3) as [expanded h4] eqn:H4.
    step_E H4 r.
    destruct (Objects.E "VoidShipmentRequest" _ h4) as [document h5] eqn:H5.
    step_E H5 r. simpl. congruence.
Qed.

(** After an accept request in a fresh module, [RequestAction] of
    [ShipmentAccept] still reads [ShipAccept]. *)
Lemma request_builders_keep_tags_and_texts_witness :
  content
    (Objects.shipment_accept_request_type
       (Objects.ShipmentAccept fresh_classes) "d1" fresh_heap).2
    (Objects.RequestAction (Objects.ShipmentAccept fresh_classes))
  = Some ("RequestAction", Some "ShipAccept").
Proof.
  rewrite (proj1 (request_builders_keep_tags_and_texts
                    (Objects.ShipmentAccept fresh_classes) fresh_heap
                    (Objects.RequestAction (Objects.ShipmentAccept fresh_classes))
                    ltac:(vm_compute; lia))).
  vm_compute. reflexivity.
Defined.

(** ** Where the class attributes hang *)

Lemma getparent_new_element (t : string) (h : list Objects.node) (r : nat) :
  r < length h →
  Objects.getparent (h ++ [Objects.Node t None None [] None]) r
  = Objects.getparent h r.
Proof. intros Hr. unfold Objects.getparent. by rewrite lookup_app_l. Qed.

(** After [E], an existing element that was given as an item hangs
    under the new element, and every other existing element hangs where
    it did. *)
Lemma getparent_E (t : string) (items : list Objects.item)
    (h : list Objects.node) (r : nat) :
  r < length h →
  Forall (λ it, match it with
                | Objects.Child c => c < S (length h)
                | Objects.Text _ => True
                end) items →
  Objects.getparent (Objects.E t items h).2 r
  = if decide (Objects.Child r ∈ items) then Some (length h)
    else Objects.getparent h r.
Proof.
  intros Hr Hall. unfold Objects.E, Objects.new_element.
  unfold mbind, Objects.St_bind, mret, Objects.St_ret.
  destruct (Objects.add_items _ _ _) as [[] h'] eqn:Hadd. simpl.
  assert (h' = (Objects.add_items (length h) items
                  (h ++ [Objects.Node t None None [] None])).2)
    as -> by by rewrite Hadd.
  rewrite getparent_add_items.
  - by rewrite getparent_new_element.
  - rewrite length_app. simpl.
    eapply Forall_impl; [exact Hall|]. intros [s|c]; simpl; lia.
Qed.

(** X17. In whatever state the elements are, an accept request takes
    the three class attributes with it: when the builder returns, the
    parent of [RequestAction], [RequestOption] and
    [TransactionReference] is the [Request] element made by this very
    call, so they hang under no element made by an earlier call. *)
Theorem accept_request_takes_the_class_attributes (cls : Objects.templates)
    (digest : string) (h : list Objects.node) :
  Objects.RequestAction cls < length h →
  Objects.RequestOption cls < length h →
  Objects.TransactionReference cls < length h →
  let h' := (Objects.shipment_accept_request_type cls digest h).2 in
  (Objects.shipment_accept_request_type cls digest h).1 = length h + 2
  ∧ Objects.getparent h' (Objects.RequestAction cls) = Some (length h)
  ∧ Objects.getparent h' (Objects.RequestOption cls) = Some (length h)
  ∧ Objects.getparent h' (Objects.TransactionReference cls) = Some (length h)
  ∧ Objects.getparent h' (length h) = Some (length h + 2).
Proof.
  intros Ha Ho Ht.
  pose proof (request_element_reparents cls h Ha Ho Ht) as Hrequest.
  unfold Objects.shipment_accept_request_type.
  unfold mbind, Objects.St_bind.
  destruct (Objects.request_element cls h) as [request h1] eqn:H1.
  destruct Hrequest as (-> & Hpa & Hpo & Hpt).
  assert (length h1 = S (length h)) as Hlen1.
  { unfold Objects.request_element in H1.
    destruct (E_frame "Request"
                [Objects.Child (Objects.RequestAction cls);
                 Objects.Child (Objects.RequestOption cls);
                 Objects.Child (Objects.TransactionReference cls)] h
                (Objects.RequestAction cls) Ha) as (_ & Hl & _).
    by rewrite H1 in Hl. }
  destruct (Objects.E "ShipmentDigest" _ h1) as [digest_element h2] eqn:H2.
  assert (digest_element = S (length h) ∧ length h2 = S (S (length h))
          ∧ ∀ r, r < length h1 →
                 Objects.getparent h2 r = Objects.getparent h1 r)
    as (-> & Hlen2 & Hp2).
  { destruct (E_frame "ShipmentDigest" [Objects.Text digest] h1 (length h))
      as (Hd & Hl & _); [lia|].
    rewrite H2 in Hd, Hl. simpl in Hd, Hl. repeat split; [lia|lia|].
    intros r Hr.
    pose proof (getparent_E "ShipmentDigest" [Objects.Text digest] h1 r Hr)
      as Hg.
    rewrite H2 in Hg. cbn [snd] in Hg. rewrite Hg.
    - rewrite decide_False; [done|].
      intros Hin. apply elem_of_cons_text in Hin. by apply elem_of_nil in Hin.
    - repeat constructor. }
  destruct (Objects.E "ShipmentAcceptRequest" _ h2) as [document h3] eqn:H3.
  assert (document = length h + 2) as ->.
  { destruct (E_frame "ShipmentAcceptRequest"
                [Objects.Child (length h); Objects.Child (S (length h))] h2
                (length h)) as (Hd & _); [lia|].
    rewrite H3 in Hd. simpl in Hd. lia. }
  assert (∀ r, r < length h2 →
            Objects.getparent h3 r
            = if decide (Objects.Child r
                         ∈ [Objects.Child (length h);
                            Objects.Child (S (length h))])
              then Some (length h2) else Objects.getparent h2 r) as Hp3.
  { intros r Hr.
    pose proof (getparent_E "ShipmentAcceptRequest"
                  [Objects.Child (length h); Objects.Child (S (length h))]
                  h2 r Hr) as Hg.
    rewrite H3 in Hg. cbn [snd] in Hg. apply Hg.
    repeat constructor; lia. }
  assert (∀ r, r < length h →
            Objects.getparent h3 r = Objects.getparent h1 r) as Hold.
  { intros r Hr. rewrite Hp3 by lia. rewrite decide_False.
    - apply Hp2. lia.
    - rewrite !elem_of_cons_child. intros [?|[?|Hin]]; [lia|lia|].
      by apply elem_of_nil in Hin. }
  simpl. split; [done|].
  rewrite !Hold by done. split; [done|]. split; [done|]. split; [done|].
  rewrite Hp3 by lia. rewrite decide_True; [f_equal; lia|].
  apply elem_of_cons_child. by left.
Qed.

(** In a fresh module the attributes of [ShipmentAccept] hang under the
    element 12, the [Request] of the first accept request. *)
Lemma accept_request_takes_the_class_attributes_witness :
  Objects.getparent
    (Objects.shipment_accept_request_type
       (Objects.ShipmentAccept fresh_classes) "d1" fresh_heap).2
    (Objects.RequestAction (Objects.ShipmentAccept fresh_classes))
  = Some (length fresh_heap).
Proof.
  apply (accept_request_takes_the_class_attributes
           (Objects.ShipmentAccept fresh_classes) "d1" fresh_heap);
    vm_compute; lia.
Defined.

(** ** From the confirm response to the accept request *)

(** X18. The two phases composed: when the confirm response holds a
    digest that objectify reads as a string, the accept request built
    from what [extract_digest] returns holds the digest once, as the
    text of its [ShipmentDigest], unchanged, after the request header. *)
Theorem digest_passes_to_accept_request (s : string) (reply : Elem) :
  find_child "ShipmentDigest" reply = Some (leaf "ShipmentDigest" s) →
  objectify.guess s = objectify.PyStr s →
  (digest ← ShipmentConfirm.extract_digest reply;
   ShipmentAccept.shipment_accept_request_type digest)
  = ret (Element "ShipmentAcceptRequest" None None
           [request_header "ShipAccept" "nonvalidate";
            leaf "ShipmentDigest" s]).
Proof.
  intros Hfind Hguess.
  unfold ShipmentConfirm.extract_digest, objectify.getattr.
  rewrite Hfind, bind_ret. unfold objectify.pyval. simpl.
  destruct (String.eqb s "") eqn:Hs.
  - apply String.eqb_eq in Hs. by subst s.
  - by rewrite Hguess.
Qed.

Lemma digest_passes_to_accept_request_witness :
  (digest ← ShipmentConfirm.extract_digest
              (E "ShipmentConfirmResponse"
                 [Child (leaf "ShipmentDigest" "abc123")]);
   ShipmentAccept.shipment_accept_request_type digest)
  = ret (Element "ShipmentAcceptRequest" None None
           [request_header "ShipAccept" "nonvalidate";
            leaf "ShipmentDigest" "abc123"]).
Proof.
  apply (digest_passes_to_accept_request "abc123"
           (E "ShipmentConfirmResponse"
              [Child (leaf "ShipmentDigest" "abc123")]));
    vm_compute; reflexivity.
Defined.

(** X19. [shipment_confirm_request_type] does not look at what it is
    given as [LabelSpecification]: a string given under that keyword is
    handed to [E] after the [Shipment] element, so the document has no
    [LabelSpecification] child at all, only [Request] and [Shipment],
    and the string ends up as the text that follows [Shipment]. *)
Theorem label_specification_given_as_text args kwargs (s : string)
    (document : Elem) :
  kwargs !! "LabelSpecification" = Some (VStr s) →
  outcome (ShipmentConfirm.shipment_confirm_request_type args kwargs)
  = Ok document →
  tag <$> children document = ["Request"; "Shipment"]
  ∧ children_tagged "LabelSpecification" document = []
  ∧ tail <$> last (children document) = Some (Some s).
Proof.
  intros Hspec. rewrite confirm_unfold, Hspec. cbv zeta. simpl fst. simpl snd.
  destruct (make_elements_cases
              ["Shipper"; "ShipTo"; "ShipFrom"; "Service"; "PaymentInformation"]
              args (delete "LabelSpecification" kwargs))
    as [(r & _ & _ & ->)|(_ & ->)]; [discriminate|].
  rewrite bind_ret, E_children. intros [= <-]. repeat split.
Qed.

Lemma label_specification_given_as_text_witness :
  ∃ document,
    outcome (ShipmentConfirm.shipment_confirm_request_type []
               shipment_with_label_text) = Ok document
    ∧ tag <$> children document = ["Request"; "Shipment"]
    ∧ children_tagged "LabelSpecification" document = []
    ∧ tail <$> last (children document) = Some (Some "GIF").
Proof.
  eexists. split; [vm_compute; reflexivity|].
  apply (label_specification_given_as_text [] shipment_with_label_text "GIF");
    vm_compute; reflexivity.
Defined.
